(** * Masked-numbers ride sharing guide: proxy allocation and webhook routing

    A shallow embedding of the Go sources [db.go], [routeHelpers.go] and
    [routes.go]:

    - the data model ([Person], [ProxyNumberType], [RideType],
      [RideSharingDB]) and [loadDB], which builds the in-memory snapshot
      from the four SQL tables;
    - [getAvailableProxyNumber], the proxy allocator;
    - [messageHookHandler] and [voiceHookHandler], the two webhook
      handlers, as functions that produce the trace of their effects;
    - [createRideHandler], in a state monad over the snapshot behind
      [dbdata], with the trace of its effects.

    Go maps are [gmap]s.  A [for ... range] over a Go map visits the
    entries in an order chosen by the runtime; every function that ranges
    over a map takes the visiting order as an explicit list, and
    [range_of m order] says that [order] is one of the orders the runtime
    may choose for [m]. *)

From Stdlib Require Import ZArith.
From stdpp Require Import gmap strings list fin_maps pretty.

Local Open Scope Z_scope.
Local Open Scope string_scope.

(** ** Data model (db.go) *)

Record Person := mkPerson {
  Person_ID : Z;
  Person_Name : string;
  Person_Number : string
}.

Record ProxyNumberType := mkProxy {
  Proxy_ID : Z;
  Proxy_Number : string
}.

Record RideType := mkRide {
  Ride_ID : Z;
  Start : string;
  Destination : string;
  DateTime : string;
  ThisCustomer : Person;
  ThisDriver : Person;
  ThisProxyNumber : ProxyNumberType;
  NumGrp : list (list Z)
}.

Record RideSharingDB := mkDB {
  Customers : gmap Z Person;
  Drivers : gmap Z Person;
  ProxyNumbers : gmap Z ProxyNumberType;
  Rides : gmap Z RideType;
  Message : string
}.

#[global] Instance Person_eq_dec : EqDecision Person.
Proof. solve_decision. Defined.
#[global] Instance ProxyNumberType_eq_dec : EqDecision ProxyNumberType.
Proof. solve_decision. Defined.
#[global] Instance RideType_eq_dec : EqDecision RideType.
Proof. solve_decision. Defined.

(** ** Iteration over Go maps *)

(** The values of a map, in the order of [map_to_list]. *)
Definition values {V} (m : gmap Z V) : list V := (map_to_list m).*2.

(** [order] is a visiting order of [for _, v := range m]. *)
Definition range_of {V} (m : gmap Z V) (order : list V) : Prop :=
  order ≡ₚ values m.

(** ** The SQL tables and [loadDB] (db.go) *)

Record RideRow := mkRow {
  row_start : string;
  row_destination : string;
  row_datetime : string;
  row_customer_id : Z;
  row_driver_id : Z;
  row_number_id : Z
}.

(** Each table maps the [id INTEGER PRIMARY KEY] to the other columns. *)
Record Tables := mkTables {
  customers : gmap Z (string * string);
  drivers : gmap Z (string * string);
  proxy_numbers : gmap Z string;
  rides : gmap Z RideRow
}.

Definition loadPeople (t : gmap Z (string * string)) : gmap Z Person :=
  map_imap (λ id row, Some (mkPerson id row.1 row.2)) t.

Definition loadProxyNumbers (t : gmap Z string) : gmap Z ProxyNumberType :=
  map_imap (λ id number, Some (mkProxy id number)) t.

(** The loops [for k1, v1 := range hereCustomers { if k1 == id ... }] copy
    name and number of the entry with that key, when there is one; the
    fields keep their zero value otherwise. *)
Definition lookupPerson (here : gmap Z Person) (id : Z) : Person :=
  match here !! id with
  | Some v1 => mkPerson id (Person_Name v1) (Person_Number v1)
  | None => mkPerson id "" ""
  end.

Definition lookupProxy (here : gmap Z ProxyNumberType) (id : Z) : ProxyNumberType :=
  match here !! id with
  | Some v3 => mkProxy id (Proxy_Number v3)
  | None => mkProxy id ""
  end.

Definition loadRide (hereCustomers hereDrivers : gmap Z Person)
    (hereProxyNumbers : gmap Z ProxyNumberType) (id : Z) (row : RideRow) : RideType :=
  mkRide id (row_start row) (row_destination row) (row_datetime row)
    (lookupPerson hereCustomers (row_customer_id row))
    (lookupPerson hereDrivers (row_driver_id row))
    (lookupProxy hereProxyNumbers (row_number_id row))
    [ [row_customer_id row; row_number_id row];
      [row_driver_id row; row_number_id row] ].

Definition loadDB (t : Tables) : RideSharingDB :=
  let hereCustomers := loadPeople (customers t) in
  let hereDrivers := loadPeople (drivers t) in
  let hereProxyNumbers := loadProxyNumbers (proxy_numbers t) in
  let hereRides :=
    map_imap (λ id row, Some (loadRide hereCustomers hereDrivers hereProxyNumbers id row))
      (rides t) in
  mkDB hereCustomers hereDrivers hereProxyNumbers hereRides "".

(** [createRideHandler] inserts one row with the identifiers of the request
    and the [ID] of the allocated proxy number; SQLite picks an unused id. *)
Definition insertRide (t : Tables) (id : Z) (row : RideRow) : Tables :=
  mkTables (customers t) (drivers t) (proxy_numbers t) (<[id := row]> (rides t)).

(** ** A state monad for code that receives [dbdata *RideSharingDB] *)

Definition State (A : Type) : Type := RideSharingDB → A * RideSharingDB.

#[global] Instance State_ret : MRet State := λ A a dbdata, (a, dbdata).
#[global] Instance State_bind : MBind State := λ A B k m dbdata,
  let '(a, dbdata') := m dbdata in k a dbdata'.
Definition gets {A} (f : RideSharingDB → A) : State A := λ dbdata, (f dbdata, dbdata).

(** ** The allocator (routeHelpers.go) *)

(** The error of [fmt.Errorf]; the zero [ProxyNumberType{}] returned next
    to it carries no information and is left out of the result. *)
Definition noProxyError : string := "no available proxy numbers".

(** [reflect.DeepEqual] on two [[]int] compares length and elements;
    [findme] always has two elements, so a nil and an empty slice in [arr]
    are both different from it. *)
Fixpoint containsNumGrp (arr : list (list Z)) (findme : list Z) : bool :=
  match arr with
  | [] => false
  | v :: arr' => if bool_decide (v = findme) then true else containsNumGrp arr' findme
  end.

(** [rideProxySets = append(rideProxySets, v1.NumGrp...)] for every ride. *)
Fixpoint collectProxySets (rideProxySets : list (list Z)) (ridesOrder : list RideType)
    : list (list Z) :=
  match ridesOrder with
  | [] => rideProxySets
  | v1 :: rest => collectProxySets (rideProxySets ++ NumGrp v1) rest
  end.

Definition proxyIsFree (rideProxySets : list (list Z)) (customerID driverID : Z)
    (v2 : ProxyNumberType) : bool :=
  negb (containsNumGrp rideProxySets [customerID; Proxy_ID v2])
  && negb (containsNumGrp rideProxySets [driverID; Proxy_ID v2]).

Fixpoint firstFreeProxy (rideProxySets : list (list Z)) (customerID driverID : Z)
    (poolOrder : list ProxyNumberType) : ProxyNumberType + string :=
  match poolOrder with
  | [] => inr noProxyError
  | v2 :: rest =>
      if proxyIsFree rideProxySets customerID driverID v2 then inl v2
      else firstFreeProxy rideProxySets customerID driverID rest
  end.

(** [ridesOrder] and [poolOrder] are the orders in which the runtime visits
    [dbdata.Rides] and [dbdata.ProxyNumbers]. *)
Definition getAvailableProxyNumber (ridesOrder : list RideType)
    (poolOrder : list ProxyNumberType) (customerID driverID : Z)
    : State (ProxyNumberType + string) :=
  n ← gets (λ dbdata, size (Rides dbdata));
  if bool_decide (n = 0%nat) then
    match poolOrder with
    | v :: _ => mret (inl v)
    | [] => mret (inr noProxyError)
    end
  else
    let rideProxySets := collectProxySets [] ridesOrder in
    mret (firstFreeProxy rideProxySets customerID driverID poolOrder).

(** The value returned on a snapshot. *)
Definition allocate (dbdata : RideSharingDB) (ridesOrder : list RideType)
    (poolOrder : list ProxyNumberType) (customerID driverID : Z)
    : ProxyNumberType + string :=
  (getAvailableProxyNumber ridesOrder poolOrder customerID driverID dbdata).1.

Fixpoint checkNumber (people : list Person) (checkme : string) : bool :=
  match people with
  | [] => false
  | v :: rest => if String.eqb (Person_Number v) checkme then true else checkNumber rest checkme
  end.

Definition checkIfCustomer (dbdata : RideSharingDB) (checkme : string) : bool :=
  checkNumber (values (Customers dbdata)) checkme.

Definition checkIfDriver (dbdata : RideSharingDB) (checkme : string) : bool :=
  checkNumber (values (Drivers dbdata)) checkme.

(** ** The webhook handlers (routes.go) *)

(** What a handler does to the outside world, in order.  [SendSMS] is a
    call of [mbSender], together with what it logs about the answer of the
    messaging API; [LogLine] is a line written with [log.Printf] or
    [log.Println]; [Respond] is what is written to the response. *)
Inductive Event :=
| SendSMS (originator : string) (recipients : list string) (body : string)
| LogLine (line : string)
| Respond (body : string).

#[global] Instance Event_eq_dec : EqDecision Event.
Proof. solve_decision. Defined.

Record MessageRequest := mkMessageRequest {
  Method : string;
  originator : string;
  receiver : string;
  payload : string
}.

Record VoiceRequest := mkVoiceRequest {
  destination : string;
  source : string
}.

Definition unknownProxyLog (receiver : string) : string :=
  "Unknown proxy number: " ++ receiver.

Definition noRideLog (originator receiver : string) : string :=
  "Could not find ride for customer/driver " ++ originator
  ++ " that uses proxy " ++ receiver.

Fixpoint messageLoop (dbdata : RideSharingDB) (originator receiver payload : string)
    (ridesOrder : list RideType) : list Event :=
  match ridesOrder with
  | [] => [Respond "OK"]
  | v :: rest =>
      if String.eqb (Proxy_Number (ThisProxyNumber v)) receiver then
        if checkIfCustomer dbdata originator then
          [SendSMS receiver [Person_Number (ThisDriver v)] payload]
        else if checkIfDriver dbdata originator then
          [SendSMS receiver [Person_Number (ThisCustomer v)] payload]
        else
          LogLine (noRideLog originator receiver)
          :: messageLoop dbdata originator receiver payload rest
      else
        LogLine (unknownProxyLog receiver)
        :: messageLoop dbdata originator receiver payload rest
  end.

(** The handler after a successful [loadDB]. *)
Definition messageHookHandler (dbdata : RideSharingDB) (ridesOrder : list RideType)
    (r : MessageRequest) : list Event :=
  if String.eqb (Method r) "POST" then
    messageLoop dbdata (originator r) (receiver r) (payload r) ridesOrder
  else [].

Definition transactionFailXML : string :=
  "<?xml version='1.0' encoding='UTF-8'?>"
  ++ "<Say language='en-GB' voice='female'>Sorry, we cannot identify your transaction. "
  ++ "Please make sure you have call in from the number you registered.</Say><Hangup />".

Definition transferXML (forwardToThisNumber : string) : string :=
  "<?xml version='1.0' encoding='UTF-8'?><Transfer destination='"
  ++ forwardToThisNumber ++ "' make='true' />".

Definition transferFailedLog (forwardToThisNumber : string) : string :=
  "Transfer to " ++ forwardToThisNumber ++ " failed.".

Definition transferringLog (forwardToThisNumber : string) : string :=
  "Transferring call to  " ++ forwardToThisNumber.

Definition voiceFailure (forwardToThisNumber : string) : list Event :=
  [Respond transactionFailXML; LogLine (transferFailedLog forwardToThisNumber)].

Fixpoint voiceLoop (dbdata : RideSharingDB) (caller proxyNumber : string)
    (forwardToThisNumber : string) (ridesOrder : list RideType) : list Event :=
  match ridesOrder with
  | [] =>
      [LogLine (transferringLog forwardToThisNumber);
       Respond (transferXML forwardToThisNumber)]
  | v :: rest =>
      if String.eqb (Proxy_Number (ThisProxyNumber v)) proxyNumber then
        if checkIfCustomer dbdata caller then
          voiceLoop dbdata caller proxyNumber (Person_Number (ThisDriver v)) rest
        else if checkIfDriver dbdata caller then
          voiceLoop dbdata caller proxyNumber (Person_Number (ThisCustomer v)) rest
        else voiceFailure forwardToThisNumber
      else voiceFailure forwardToThisNumber
  end.

(** The handler after a successful [loadDB]; [forwardToThisNumber] starts
    as the empty string. *)
Definition voiceHookHandler (dbdata : RideSharingDB) (ridesOrder : list RideType)
    (r : VoiceRequest) : list Event :=
  voiceLoop dbdata (source r) (destination r) "" ridesOrder.

(** The recipients of the messages a trace sends. *)
Fixpoint forwardedTo (trace : list Event) : list string :=
  match trace with
  | [] => []
  | SendSMS _ recipients _ :: rest => recipients ++ forwardedTo rest
  | _ :: rest => forwardedTo rest
  end.

(** A number group is in use when some ride of the snapshot carries it. *)
Definition inUse (dbdata : RideSharingDB) (grp : list Z) : Prop :=
  ∃ k v1, Rides dbdata !! k = Some v1 ∧ grp ∈ NumGrp v1.

Definition isFree (dbdata : RideSharingDB) (customerID driverID : Z)
    (v2 : ProxyNumberType) : Prop :=
  ¬ inUse dbdata [customerID; Proxy_ID v2] ∧ ¬ inUse dbdata [driverID; Proxy_ID v2].

(** ** The no-collision invariant and the histories the allocator builds *)

(** Two different rides on the same proxy number have no customer or
    driver identifier in common. *)
Definition noCollision (dbdata : RideSharingDB) : Prop :=
  ∀ k1 k2 p1 p2,
    k1 ≠ k2 →
    Rides dbdata !! k1 = Some p1 →
    Rides dbdata !! k2 = Some p2 →
    Proxy_ID (ThisProxyNumber p1) = Proxy_ID (ThisProxyNumber p2) →
    Person_ID (ThisCustomer p1) ≠ Person_ID (ThisCustomer p2)
    ∧ Person_ID (ThisCustomer p1) ≠ Person_ID (ThisDriver p2)
    ∧ Person_ID (ThisDriver p1) ≠ Person_ID (ThisCustomer p2)
    ∧ Person_ID (ThisDriver p1) ≠ Person_ID (ThisDriver p2).

Definition rowsNoCollision (rows : gmap Z RideRow) : Prop :=
  ∀ k1 k2 x1 x2,
    k1 ≠ k2 →
    rows !! k1 = Some x1 →
    rows !! k2 = Some x2 →
    row_number_id x1 = row_number_id x2 →
    row_customer_id x1 ≠ row_customer_id x2
    ∧ row_customer_id x1 ≠ row_driver_id x2
    ∧ row_driver_id x1 ≠ row_customer_id x2
    ∧ row_driver_id x1 ≠ row_driver_id x2.

(** The tables reached from an empty [rides] table when every ride is
    stored with the proxy number the allocator returned for it, on the
    snapshot loaded just before.  The other tables may change between two
    requests. *)
Inductive committed : Tables → Prop :=
| committed_start t :
    rides t = ∅ → committed t
| committed_tables t cs ds ps :
    committed t → committed (mkTables cs ds ps (rides t))
| committed_create t ridesOrder poolOrder customerID driverID v id start dest datetime :
    committed t →
    range_of (Rides (loadDB t)) ridesOrder →
    range_of (ProxyNumbers (loadDB t)) poolOrder →
    allocate (loadDB t) ridesOrder poolOrder customerID driverID = inl v →
    rides t !! id = None →
    committed
      (insertRide t id (mkRow start dest datetime customerID driverID (Proxy_ID v))).

(** ** The example data of [initExampleDB] and the rotation scenario *)

Definition caitlyn : string := "319700000".
Definition danny : string := "319700001".
Definition david : string := "319700002".
Definition eileen : string := "319700003".
Definition vmn1 : string := "319700004".
Definition vmn2 : string := "319700005".

Definition exampleCustomers : gmap Z (string * string) :=
  <[1 := ("Caitlyn Carless", caitlyn)]> (<[2 := ("Danny Bikes", danny)]> ∅).
Definition exampleDrivers : gmap Z (string * string) :=
  <[1 := ("David Driver", david)]> (<[2 := ("Eileen LaRue", eileen)]> ∅).
Definition exampleProxyNumbers : gmap Z string :=
  <[1 := vmn1]> (<[2 := vmn2]> ∅).

(** The tables after [initExampleDB]. *)
Definition noRides : Tables :=
  mkTables exampleCustomers exampleDrivers exampleProxyNumbers ∅.

(** Caitlyn with David on the first proxy number. *)
Definition oneRide : Tables :=
  insertRide noRides 1 (mkRow "Home" "Office" "09:00" 1 1 1).

(** Then Caitlyn with Eileen, on the second proxy number. *)
Definition twoRides : Tables :=
  insertRide oneRide 2 (mkRow "Office" "Airport" "12:00" 1 2 2).

(** Then Danny with Eileen, who reuse the first proxy number. *)
Definition rotationTables : Tables :=
  insertRide twoRides 3 (mkRow "Station" "Home" "18:00" 2 2 1).

Definition ride1 : RideType :=
  mkRide 1 "Home" "Office" "09:00"
    (mkPerson 1 "Caitlyn Carless" caitlyn) (mkPerson 1 "David Driver" david)
    (mkProxy 1 vmn1) [[1; 1]; [1; 1]].
Definition ride2 : RideType :=
  mkRide 2 "Office" "Airport" "12:00"
    (mkPerson 1 "Caitlyn Carless" caitlyn) (mkPerson 2 "Eileen LaRue" eileen)
    (mkProxy 2 vmn2) [[1; 2]; [2; 2]].
Definition ride3 : RideType :=
  mkRide 3 "Station" "Home" "18:00"
    (mkPerson 2 "Danny Bikes" danny) (mkPerson 2 "Eileen LaRue" eileen)
    (mkProxy 1 vmn1) [[2; 1]; [2; 1]].

(** The example data when Danny also registers as a driver, with the same
    phone number, and drives Caitlyn. *)
Definition dannyDrives : Tables :=
  mkTables exampleCustomers (<[3 := ("Danny Bikes", danny)]> exampleDrivers)
    exampleProxyNumbers {[1 := mkRow "Home" "Office" "09:00" 1 3 1]}.

Definition rideWithDanny : RideType :=
  mkRide 1 "Home" "Office" "09:00"
    (mkPerson 1 "Caitlyn Carless" caitlyn) (mkPerson 3 "Danny Bikes" danny)
    (mkProxy 1 vmn1) [[1; 1]; [3; 1]].

(** The ride stored under [k] is the only one on the proxy number. *)
Definition onlyRideOn (dbdata : RideSharingDB) (k : Z) (proxyNumber : string) : Prop :=
  ∀ k' v', Rides dbdata !! k' = Some v' →
    Proxy_Number (ThisProxyNumber v') = proxyNumber → k' = k.


(** The number is the phone number of no customer and of no driver. *)
Definition unknownSender (dbdata : RideSharingDB) (number : string) : Prop :=
  (∀ k v, Customers dbdata !! k = Some v → Person_Number v ≠ number)
  ∧ (∀ k v, Drivers dbdata !! k = Some v → Person_Number v ≠ number).

(** The trace of a call that is transferred. *)
Definition transferTrace (forwardToThisNumber : string) : list Event :=
  [LogLine (transferringLog forwardToThisNumber);
   Respond (transferXML forwardToThisNumber)].

Definition isLogLine (e : Event) : Prop := ∃ line, e = LogLine line.

(** ** [createRideHandler] (routes.go) *)

Record CreateRideRequest := mkCreateRideRequest {
  form_Method : string;
  form_customer : string;
  form_driver : string;
  form_start : string;
  form_destination : string;
  form_datetime : string
}.

(** What [createRideHandler] does to the outside world: the statements it
    hands to [dbInsert], the messages and log lines of [Event], the page it
    renders with the snapshot behind [dbdata] at that moment, and the end of
    the process when [dbInsert] fails ([must] calls [log.Fatal]). *)
Inductive PageEvent :=
| DbInsert (queries : list string)
| Effect (e : Event)
| Render (view : string) (data : RideSharingDB)
| Fatal.

Definition landingView : string := "views/landing.gohtml".

(** [loadDB] as the handlers call it: [outcome] is what the database
    gives, the tables or the error of [sql.Open] or [db.Query].  On an
    error the function returns before it assigns [*dbdata]. *)
Definition loadDBM (outcome : Tables + string) : State (option string) :=
  λ dbdata,
    match outcome with
    | inl t => (None, loadDB t)
    | inr err => (Some err, dbdata)
    end.

(** [dbdata.Message = msg] *)
Definition setMessage (msg : string) : State unit :=
  λ dbdata,
    (tt, mkDB (Customers dbdata) (Drivers dbdata) (ProxyNumbers dbdata)
           (Rides dbdata) msg).

(** [renderDefaultTemplate(w, "views/landing.gohtml", dbdata)] after the
    events so far. *)
Definition renderLanding (events : list PageEvent) : State (list PageEvent) :=
  dbdata ← gets id;
  mret (events ++ [Render landingView dbdata])%list.

(** The reload just before the page is rendered, at the end of the
    handler. *)
Definition reloadAndRender (reload : Tables + string) (events : list PageEvent)
    : State (list PageEvent) :=
  err ← loadDBM reload;
  match err with
  | Some e =>
      _ ← setMessage e;
      renderLanding (events ++ [Effect (LogLine e)])%list
  | None => renderLanding events
  end.

(** [dbdata.Customers[id]] and [dbdata.Drivers[id]]: the zero [Person] when
    the map has no such key. *)
Definition personAt (people : gmap Z Person) (id : Z) : Person :=
  default (mkPerson 0 "" "") (people !! id).

(** The statement built with [fmt.Sprintf]; the identifiers of customer and
    driver go in as the strings of the form, the proxy id with [%d]. *)
Definition insertQuery (startLocation destinationLocation dateTime customerID driverID
    : string) (numberID : Z) : string :=
  "INSERT INTO rides (start,destination,datetime,customer_id,driver_id,number_id) VALUES ('"
  ++ startLocation ++ "','" ++ destinationLocation ++ "','" ++ dateTime ++ "','"
  ++ customerID ++ "','" ++ driverID ++ "','" ++ pretty numberID ++ "')".

Definition pickupNotice (name dateTime : string) : string :=
  name ++ " will pick you up at " ++ dateTime
  ++ ". Reply to this message to contact the driver.".

(** The handler.  [Atoi] stands for [strconv.Atoi]: the value, and the text
    of the error when there is one.  [load] and [reload] are what the two
    calls of [loadDB] get from the database, [inserted] tells whether the
    statement of [dbInsert] goes through. *)
Definition createRideHandler (Atoi : string → Z * option string)
    (load : Tables + string) (ridesOrder : list RideType)
    (poolOrder : list ProxyNumberType) (inserted : bool) (reload : Tables + string)
    (r : CreateRideRequest) : State (list PageEvent) :=
  err ← loadDBM load;
  match err with
  | Some e =>
      _ ← setMessage e;
      renderLanding [Effect (LogLine e)]
  | None =>
      if String.eqb (form_Method r) "POST" then
        let customerID := form_customer r in
        let driverID := form_driver r in
        let dateTime := form_datetime r in
        let '(customerIDint, _) := Atoi customerID in
        let '(driverIDint, err) := Atoi driverID in
        match err with
        | Some e =>
            _ ← setMessage ("Something went wrong: " ++ e);
            renderLanding []
        | None =>
            res ← getAvailableProxyNumber ridesOrder poolOrder customerIDint driverIDint;
            match res with
            | inr e =>
                _ ← setMessage ("We encountered an error: " ++ e);
                renderLanding [Effect (LogLine e)]
            | inl availableProxy =>
                let q :=
                  insertQuery (form_start r) (form_destination r) dateTime
                    customerID driverID (Proxy_ID availableProxy) in
                if inserted then
                  dbdata ← gets id;
                  reloadAndRender reload
                    [DbInsert [q];
                     Effect (SendSMS (Proxy_Number availableProxy)
                               [Person_Number (personAt (Customers dbdata) customerIDint)]
                               (pickupNotice
                                  (Person_Name (personAt (Drivers dbdata) driverIDint))
                                  dateTime));
                     Effect (SendSMS (Proxy_Number availableProxy)
                               [Person_Number (personAt (Drivers dbdata) driverIDint)]
                               (pickupNotice
                                  (Person_Name (personAt (Customers dbdata) customerIDint))
                                  dateTime))]
                else mret [DbInsert [q]; Fatal]
            end
        end
      else reloadAndRender reload []
  end.

(** The snapshot with another message. *)
Definition withMessage (dbdata : RideSharingDB) (msg : string) : RideSharingDB :=
  (setMessage msg dbdata).2.

(** The trace and the snapshot left behind [dbdata] when the handler starts
    on the snapshot [dbdata]. *)
Definition createRideTrace (Atoi : string → Z * option string)
    (load : Tables + string) (ridesOrder : list RideType)
    (poolOrder : list ProxyNumberType) (inserted : bool) (reload : Tables + string)
    (r : CreateRideRequest) (dbdata : RideSharingDB) : list PageEvent :=
  (createRideHandler Atoi load ridesOrder poolOrder inserted reload r dbdata).1.

Definition createRideFinal (Atoi : string → Z * option string)
    (load : Tables + string) (ridesOrder : list RideType)
    (poolOrder : list ProxyNumberType) (inserted : bool) (reload : Tables + string)
    (r : CreateRideRequest) (dbdata : RideSharingDB) : RideSharingDB :=
  (createRideHandler Atoi load ridesOrder poolOrder inserted reload r dbdata).2.

(** What the reload at the end of the handler adds to the trace. *)
Definition reloadTail (reload : Tables + string) (dbdata : RideSharingDB)
    : list PageEvent :=
  match reload with
  | inl t' => [Render landingView (loadDB t')]
  | inr e => [Effect (LogLine e); Render landingView (withMessage dbdata e)]
  end.

(** A reader of decimal numerals, with an optional sign, that stands for
    [strconv.Atoi] in the examples; its error text leaves out the quotes
    that [strconv] puts around the input. *)
Definition digitValue (c : Ascii.ascii) : option Z :=
  let n := Z.of_N (Ascii.N_of_ascii c) in
  if ((48 <=? n) && (n <=? 57))%Z then Some (n - 48) else None.

Fixpoint readDigits (acc : Z) (s : string) : option Z :=
  match s with
  | EmptyString => Some acc
  | String c s' =>
      match digitValue c with
      | Some d => readDigits (10 * acc + d) s'
      | None => None
      end
  end.

Definition exampleAtoi (s : string) : Z * option string :=
  let syntax := (0, Some ("strconv.Atoi: parsing " ++ s ++ ": invalid syntax")) in
  let negative := String.prefix "-" s in
  let signed := negative || String.prefix "+" s in
  let body := if signed then String.substring 1 (String.length s - 1) s else s in
  match body with
  | EmptyString => syntax
  | _ =>
      match readDigits 0 body with
      | Some n => (if negative then - n else n, None)
      | None => syntax
      end
  end.

(** * Properties *)

Local Open Scope list_scope.

(** ** Visiting orders *)

Section Range.
Context {V : Type}.
Implicit Types (m : gmap Z V) (order : list V).

Lemma values_range m : range_of m (values m).
Proof. by unfold range_of. Qed.

Lemma elem_of_values m v : v ∈ values m ↔ ∃ k, m !! k = Some v.
Proof.
  unfold values. rewrite list_elem_of_fmap. split.
  - intros [[k v'] [-> Hin]]. exists k. by apply elem_of_map_to_list.
  - intros [k Hk]. exists (k, v). split; [done|]. by apply elem_of_map_to_list.
Qed.

Lemma range_of_elem m order v :
  range_of m order → v ∈ order ↔ ∃ k, m !! k = Some v.
Proof. unfold range_of. intros ->. apply elem_of_values. Qed.

Lemma range_of_length m order : range_of m order → length order = size m.
Proof.
  unfold range_of, values. intros ->.
  by rewrite length_fmap, length_map_to_list.
Qed.

Lemma range_of_empty order : range_of (∅ : gmap Z V) order → order = [].
Proof.
  intros H. apply range_of_length in H. rewrite map_size_empty in H.
  by destruct order.
Qed.

End Range.

(** ** The helpers *)

Lemma containsNumGrp_true arr findme : containsNumGrp arr findme = true ↔ findme ∈ arr.
Proof.
  induction arr as [|v arr IH]; simpl.
  - split; [done|]. by intros ?%elem_of_nil.
  - rewrite elem_of_cons. case_bool_decide as Hv.
    + split; [|done]. intros _. by left.
    + rewrite IH. split; [by right|]. intros [->|]; [done|done].
Qed.

Lemma containsNumGrp_false arr findme : containsNumGrp arr findme = false ↔ findme ∉ arr.
Proof.
  rewrite <- containsNumGrp_true. destruct (containsNumGrp arr findme); split; congruence.
Qed.

Lemma elem_of_collectProxySets_acc grp acc ridesOrder :
  grp ∈ collectProxySets acc ridesOrder
  ↔ grp ∈ acc ∨ ∃ v1, v1 ∈ ridesOrder ∧ grp ∈ NumGrp v1.
Proof.
  revert acc. induction ridesOrder as [|v rest IH]; intros acc; simpl.
  - split; [by left|]. intros [?|(v1 & Hv1 & _)]; [done|]. by apply elem_of_nil in Hv1.
  - rewrite IH, elem_of_app. split.
    + intros [[?|?]|(v1 & Hv1 & ?)]; [by left| |].
      * right. exists v. split; [left|done].
      * right. exists v1. split; [by right|done].
    + intros [?|(v1 & Hv1 & ?)]; [by left; left|].
      apply elem_of_cons in Hv1 as [->|Hv1]; [by left; right|right; eauto].
Qed.

Lemma elem_of_collectProxySets grp ridesOrder :
  grp ∈ collectProxySets [] ridesOrder ↔ ∃ v1, v1 ∈ ridesOrder ∧ grp ∈ NumGrp v1.
Proof.
  rewrite elem_of_collectProxySets_acc. split; [|by right].
  intros [H|H]; [by apply elem_of_nil in H|done].
Qed.

Lemma elem_of_rideProxySets dbdata ridesOrder grp :
  range_of (Rides dbdata) ridesOrder →
  grp ∈ collectProxySets [] ridesOrder ↔ inUse dbdata grp.
Proof.
  intros Hr. rewrite elem_of_collectProxySets. unfold inUse. split.
  - intros (v1 & Hv1 & Hgrp). apply (range_of_elem _ _ _ Hr) in Hv1 as [k Hk]. eauto.
  - intros (k & v1 & Hk & Hgrp). exists v1. split; [|done].
    apply (range_of_elem _ _ _ Hr). eauto.
Qed.

Lemma proxyIsFree_true dbdata ridesOrder customerID driverID v2 :
  range_of (Rides dbdata) ridesOrder →
  proxyIsFree (collectProxySets [] ridesOrder) customerID driverID v2 = true
  ↔ isFree dbdata customerID driverID v2.
Proof.
  intros Hr. unfold proxyIsFree, isFree.
  rewrite andb_true_iff, !negb_true_iff, !containsNumGrp_false.
  by rewrite !(elem_of_rideProxySets _ _ _ Hr).
Qed.

Lemma firstFreeProxy_inl sets customerID driverID poolOrder v :
  firstFreeProxy sets customerID driverID poolOrder = inl v →
  v ∈ poolOrder ∧ proxyIsFree sets customerID driverID v = true.
Proof.
  induction poolOrder as [|v2 rest IH]; simpl; [done|].
  destruct (proxyIsFree sets customerID driverID v2) eqn:Hfree.
  - intros [= <-]. split; [left|done].
  - intros [Hin ?]%IH. split; [by right|done].
Qed.

Lemma firstFreeProxy_none sets customerID driverID poolOrder :
  (∀ v2, v2 ∈ poolOrder → proxyIsFree sets customerID driverID v2 = false) →
  firstFreeProxy sets customerID driverID poolOrder = inr noProxyError.
Proof.
  induction poolOrder as [|v2 rest IH]; simpl; [done|]. intros H.
  rewrite (H v2) by left. apply IH. intros w Hw. apply H. by right.
Qed.

Lemma firstFreeProxy_only sets customerID driverID poolOrder v :
  v ∈ poolOrder →
  proxyIsFree sets customerID driverID v = true →
  (∀ v2, v2 ∈ poolOrder → v2 ≠ v → proxyIsFree sets customerID driverID v2 = false) →
  firstFreeProxy sets customerID driverID poolOrder = inl v.
Proof.
  induction poolOrder as [|v2 rest IH]; simpl; intros Hin Hfree Hothers.
  - by apply elem_of_nil in Hin.
  - destruct (decide (v2 = v)) as [->|Hne].
    + by rewrite Hfree.
    + rewrite (Hothers v2) by (done || left). apply IH; [|done|].
      * apply elem_of_cons in Hin as [->|]; [done|done].
      * intros w Hw. apply Hothers. by right.
Qed.

Lemma firstFreeProxy_total sets customerID driverID poolOrder :
  (∃ v, firstFreeProxy sets customerID driverID poolOrder = inl v)
  ∨ firstFreeProxy sets customerID driverID poolOrder = inr noProxyError.
Proof.
  induction poolOrder as [|v2 rest IH]; simpl; [by right|].
  destruct (proxyIsFree sets customerID driverID v2); [left; eauto|done].
Qed.

Lemma allocate_empty dbdata ridesOrder poolOrder customerID driverID :
  Rides dbdata = ∅ →
  allocate dbdata ridesOrder poolOrder customerID driverID
  = match poolOrder with v :: _ => inl v | [] => inr noProxyError end.
Proof.
  intros Hr. unfold allocate, getAvailableProxyNumber, gets, mbind, State_bind.
  rewrite Hr, map_size_empty. simpl. by destruct poolOrder.
Qed.

Lemma allocate_nonempty dbdata ridesOrder poolOrder customerID driverID :
  Rides dbdata ≠ ∅ →
  allocate dbdata ridesOrder poolOrder customerID driverID
  = firstFreeProxy (collectProxySets [] ridesOrder) customerID driverID poolOrder.
Proof.
  intros Hr. unfold allocate, getAvailableProxyNumber, gets, mbind, State_bind.
  apply map_size_non_empty_iff in Hr. by rewrite bool_decide_eq_false_2.
Qed.

(** [checkIfCustomer] and [checkIfDriver] do not depend on the visiting
    order. *)
Lemma checkNumber_true people checkme :
  checkNumber people checkme = true ↔ ∃ v, v ∈ people ∧ Person_Number v = checkme.
Proof.
  induction people as [|v rest IH]; simpl.
  - split; [done|]. intros (v & Hv & _). by apply elem_of_nil in Hv.
  - destruct (String.eqb_spec (Person_Number v) checkme) as [Heq|Hne].
    + split; [|done]. intros _. exists v. split; [left|done].
    + rewrite IH. split.
      * intros (w & Hw & Hn). exists w. split; [by right|done].
      * intros (w & Hw & Hn). apply elem_of_cons in Hw as [->|Hw]; [done|eauto].
Qed.

Lemma checkNumber_Permutation people people' checkme :
  people ≡ₚ people' → checkNumber people checkme = checkNumber people' checkme.
Proof.
  intros Hp. apply eq_true_iff_eq. rewrite !checkNumber_true.
  by setoid_rewrite Hp.
Qed.

Lemma checkIfCustomer_true dbdata checkme :
  checkIfCustomer dbdata checkme = true
  ↔ ∃ k v, Customers dbdata !! k = Some v ∧ Person_Number v = checkme.
Proof.
  unfold checkIfCustomer. rewrite checkNumber_true. setoid_rewrite elem_of_values.
  split.
  - intros (v & [k Hk] & Hn). eauto.
  - intros (k & v & Hk & Hn). eauto.
Qed.

Lemma checkIfDriver_true dbdata checkme :
  checkIfDriver dbdata checkme = true
  ↔ ∃ k v, Drivers dbdata !! k = Some v ∧ Person_Number v = checkme.
Proof.
  unfold checkIfDriver. rewrite checkNumber_true. setoid_rewrite elem_of_values.
  split.
  - intros (v & [k Hk] & Hn). eauto.
  - intros (k & v & Hk & Hn). eauto.
Qed.

Lemma proxyIsFree_false dbdata ridesOrder customerID driverID v2 :
  range_of (Rides dbdata) ridesOrder →
  inUse dbdata [customerID; Proxy_ID v2] ∨ inUse dbdata [driverID; Proxy_ID v2] →
  proxyIsFree (collectProxySets [] ridesOrder) customerID driverID v2 = false.
Proof.
  intros Hr Huse. apply not_true_is_false. rewrite (proxyIsFree_true _ _ _ _ _ Hr).
  intros [H1 H2]. by destruct Huse.
Qed.

(** ** Snapshots built by [loadDB] *)

Lemma loadDB_Rides_lookup t k :
  Rides (loadDB t) !! k
  = loadRide (Customers (loadDB t)) (Drivers (loadDB t)) (ProxyNumbers (loadDB t)) k
    <$> rides t !! k.
Proof. simpl. rewrite map_lookup_imap. by destruct (rides t !! k). Qed.

Lemma loadDB_ProxyNumbers_lookup t k :
  ProxyNumbers (loadDB t) !! k = mkProxy k <$> proxy_numbers t !! k.
Proof.
  simpl. unfold loadProxyNumbers. rewrite map_lookup_imap.
  by destruct (proxy_numbers t !! k).
Qed.

Lemma loadDB_Rides_empty t : rides t = ∅ ↔ Rides (loadDB t) = ∅.
Proof.
  split; intros H; apply map_eq; intros k; rewrite lookup_empty.
  - by rewrite loadDB_Rides_lookup, H, lookup_empty.
  - pose proof (loadDB_Rides_lookup t k) as Hk. rewrite H, lookup_empty in Hk.
    by destruct (rides t !! k).
Qed.

Lemma loadDB_inUse t grp :
  inUse (loadDB t) grp
  ↔ ∃ k row, rides t !! k = Some row
      ∧ (grp = [row_customer_id row; row_number_id row]
         ∨ grp = [row_driver_id row; row_number_id row]).
Proof.
  unfold inUse. split.
  - intros (k & v1 & Hk & Hgrp). rewrite loadDB_Rides_lookup in Hk.
    destruct (rides t !! k) as [row|] eqn:Hrow; [|done].
    injection Hk as <-. exists k, row. split; [done|].
    simpl in Hgrp. apply elem_of_cons in Hgrp as [->|Hgrp]; [by left|].
    apply elem_of_cons in Hgrp as [->|Hgrp]; [by right|]. by apply elem_of_nil in Hgrp.
  - intros (k & row & Hrow & Hgrp). eexists k, _. split.
    + rewrite loadDB_Rides_lookup, Hrow. reflexivity.
    + simpl. destruct Hgrp as [->| ->]; [left|right; left].
Qed.

(** ** The allocator *)

(** C9. [getAvailableProxyNumber] only reads the snapshot behind [dbdata]:
    whatever the visiting orders and the identifiers, and whether it returns
    a proxy number or the error, the snapshot after the call is the snapshot
    before it (customers, drivers, pool, rides and message). *)
Theorem getAvailableProxyNumber_pure ridesOrder poolOrder customerID driverID dbdata :
  let (result, dbdata') :=
    getAvailableProxyNumber ridesOrder poolOrder customerID driverID dbdata in
  dbdata' = dbdata
  ∧ ProxyNumbers dbdata' = ProxyNumbers dbdata
  ∧ Rides dbdata' = Rides dbdata
  ∧ ((∃ v, result = inl v) ∨ result = inr noProxyError).
Proof.
  unfold getAvailableProxyNumber, gets, mbind, State_bind. simpl.
  case_bool_decide.
  - destruct poolOrder; simpl; repeat split; eauto.
  - simpl. repeat split. apply firstFreeProxy_total.
Qed.

(** C5. On a snapshot without rides and with a non-empty pool, the allocator
    returns a proxy number, and that number is an entry of the pool, for
    every order in which the pool is visited. *)
Theorem allocate_empty_history dbdata ridesOrder poolOrder customerID driverID :
  Rides dbdata = ∅ →
  ProxyNumbers dbdata ≠ ∅ →
  range_of (ProxyNumbers dbdata) poolOrder →
  ∃ v, allocate dbdata ridesOrder poolOrder customerID driverID = inl v
       ∧ ∃ k, ProxyNumbers dbdata !! k = Some v.
Proof.
  intros Hrides Hpool Hrange. rewrite allocate_empty by done.
  destruct poolOrder as [|v rest].
  - apply range_of_length in Hrange. simpl in Hrange.
    symmetry in Hrange. by apply map_size_empty_iff in Hrange.
  - exists v. split; [done|]. apply (range_of_elem _ _ _ Hrange). left.
Qed.

Lemma loadDB_pool_elem t poolOrder v :
  range_of (ProxyNumbers (loadDB t)) poolOrder →
  v ∈ poolOrder ↔ proxy_numbers t !! Proxy_ID v = Some (Proxy_Number v).
Proof.
  intros Hr. rewrite (range_of_elem _ _ _ Hr). split.
  - intros [k Hk]. rewrite loadDB_ProxyNumbers_lookup in Hk.
    destruct (proxy_numbers t !! k) as [n|] eqn:Hn; [|done].
    injection Hk as <-. done.
  - intros Hv. exists (Proxy_ID v). rewrite loadDB_ProxyNumbers_lookup, Hv.
    by destruct v.
Qed.

Lemma loadDB_Rides_nonempty t k row : rides t !! k = Some row → Rides (loadDB t) ≠ ∅.
Proof.
  intros Hk He. apply loadDB_Rides_empty in He. by rewrite He, lookup_empty in Hk.
Qed.

(** Deciding [inUse] on a loaded snapshot comes down to the rows. *)
Ltac rows_in_use :=
  rewrite loadDB_inUse; simpl;
  intros (k & row & Hrow & Hgrp);
  repeat (apply lookup_insert_Some in Hrow as [[<- <-]|[_ Hrow]]);
  try (apply lookup_singleton_Some in Hrow as [<- <-]);
  simpl in Hgrp; destruct Hgrp as [Hgrp|Hgrp]; congruence.

(** C6. Pool [{P1}] and one ride (customer 1, driver 2, proxy [P1]): a
    request for customer 1 and driver 3 gets the error, a request for
    customer 5 and driver 6 gets [P1]. *)
Theorem exhaustion_case cs ds (P1 rid : Z) (n1 start dest datetime : string)
    ridesOrder poolOrder :
  let t := mkTables cs ds {[P1 := n1]} {[rid := mkRow start dest datetime 1 2 P1]} in
  range_of (Rides (loadDB t)) ridesOrder →
  range_of (ProxyNumbers (loadDB t)) poolOrder →
  allocate (loadDB t) ridesOrder poolOrder 1 3 = inr noProxyError
  ∧ allocate (loadDB t) ridesOrder poolOrder 5 6 = inl (mkProxy P1 n1).
Proof.
  intros t Hrides Hpool.
  assert (Hne : Rides (loadDB t) ≠ ∅).
  { apply (loadDB_Rides_nonempty t rid (mkRow start dest datetime 1 2 P1)).
    apply lookup_singleton_eq. }
  assert (Honly : ∀ v, v ∈ poolOrder → v = mkProxy P1 n1).
  { intros [i n] Hv. apply (loadDB_pool_elem _ _ _ Hpool) in Hv. simpl in Hv.
    apply lookup_singleton_Some in Hv as [<- <-]. done. }
  rewrite !allocate_nonempty by done. split.
  - apply firstFreeProxy_none. intros v2 ->%Honly.
    apply (proxyIsFree_false (loadDB t)); [done|]. left. simpl.
    apply loadDB_inUse. eexists rid, _. split; [apply lookup_singleton_eq|by left].
  - apply firstFreeProxy_only.
    + apply (loadDB_pool_elem _ _ _ Hpool). simpl. apply lookup_singleton_eq.
    + apply (proxyIsFree_true (loadDB t)); [done|]. split; rows_in_use.
    + intros v2 ->%Honly. done.
Qed.


Lemma Person_ID_lookupPerson here id : Person_ID (lookupPerson here id) = id.
Proof. unfold lookupPerson. by destruct (here !! id). Qed.

Lemma Proxy_ID_lookupProxy here id : Proxy_ID (lookupProxy here id) = id.
Proof. unfold lookupProxy. by destruct (here !! id). Qed.

Lemma noCollision_rows t : noCollision (loadDB t) ↔ rowsNoCollision (rides t).
Proof.
  split.
  - intros H k1 k2 x1 x2 Hne H1 H2 Hn.
    pose proof (loadDB_Rides_lookup t k1) as L1. rewrite H1 in L1.
    pose proof (loadDB_Rides_lookup t k2) as L2. rewrite H2 in L2.
    specialize (H k1 k2 _ _ Hne L1 L2). simpl in H.
    rewrite !Person_ID_lookupPerson, !Proxy_ID_lookupProxy in H. by apply H.
  - intros H k1 k2 p1 p2 Hne H1 H2 Hn.
    rewrite loadDB_Rides_lookup in H1, H2.
    destruct (rides t !! k1) as [x1|] eqn:Hx1; [|done].
    destruct (rides t !! k2) as [x2|] eqn:Hx2; [|done].
    injection H1 as <-. injection H2 as <-. simpl in *.
    rewrite !Person_ID_lookupPerson. rewrite !Proxy_ID_lookupProxy in Hn.
    by apply (H k1 k2).
Qed.

Lemma allocate_isFree t ridesOrder poolOrder customerID driverID v k row :
  range_of (Rides (loadDB t)) ridesOrder →
  allocate (loadDB t) ridesOrder poolOrder customerID driverID = inl v →
  rides t !! k = Some row →
  row_number_id row = Proxy_ID v →
  customerID ≠ row_customer_id row ∧ customerID ≠ row_driver_id row
  ∧ driverID ≠ row_customer_id row ∧ driverID ≠ row_driver_id row.
Proof.
  intros Hr Halloc Hrow Hn.
  rewrite allocate_nonempty in Halloc by eauto using loadDB_Rides_nonempty.
  apply firstFreeProxy_inl in Halloc as [_ Hfree].
  apply (proxyIsFree_true (loadDB t)) in Hfree as [Hc Hd]; [|done].
  rewrite loadDB_inUse in Hc, Hd.
  repeat split; intros ->.
  - apply Hc. exists k, row. rewrite Hn. split; [done|by left].
  - apply Hc. exists k, row. rewrite Hn. split; [done|by right].
  - apply Hd. exists k, row. rewrite Hn. split; [done|by left].
  - apply Hd. exists k, row. rewrite Hn. split; [done|by right].
Qed.

(** C8. Every history built by storing the allocator's results satisfies
    the no-collision invariant: two different rides on the same proxy
    number share neither a customer nor a driver identifier, in either
    role. *)
Theorem committed_noCollision t : committed t → noCollision (loadDB t).
Proof.
  intros Hc. apply noCollision_rows.
  induction Hc as [t Hempty|t cs ds ps _ IH
                  |t ro po c d v id start dest datetime _ IH Hro Hpo Halloc Hfresh].
  - intros k1 k2 x1 x2 _ H1. by rewrite Hempty, lookup_empty in H1.
  - done.
  - intros k1 k2 x1 x2 Hne H1 H2 Hn. simpl in H1, H2.
    apply lookup_insert_Some in H1 as [[<- <-]|[Hk1 H1]];
      apply lookup_insert_Some in H2 as [[<- <-]|[Hk2 H2]]; simpl in *.
    + done.
    + by apply (allocate_isFree t ro po c d v k2 x2).
    + destruct (allocate_isFree t ro po c d v k1 x1) as (?&?&?&?); [done..|].
      repeat split; congruence.
    + by apply (IH k1 k2).
Qed.

(** ** The rotation scenario is a history the allocator builds *)

Ltac concrete_range :=
  unfold range_of; eapply bool_decide_eq_true_1; vm_compute; reflexivity.

Lemma rotation_committed : committed rotationTables.
Proof.
  assert (H0 : committed noRides) by (by apply committed_start).
  assert (H1 : committed oneRide).
  { apply (committed_create noRides [] [mkProxy 1 vmn1; mkProxy 2 vmn2] 1 1 (mkProxy 1 vmn1));
      [done|concrete_range|concrete_range|by vm_compute|by vm_compute]. }
  assert (H2 : committed twoRides).
  { apply (committed_create oneRide [ride1] [mkProxy 1 vmn1; mkProxy 2 vmn2] 1 2
             (mkProxy 2 vmn2));
      [done|concrete_range|concrete_range|by vm_compute|by vm_compute]. }
  apply (committed_create twoRides [ride1; ride2] [mkProxy 1 vmn1; mkProxy 2 vmn2] 2 2
           (mkProxy 1 vmn1));
    [done|concrete_range|concrete_range|by vm_compute|by vm_compute].
Qed.

(** ** The message webhook *)

Lemma checks_unknownSender dbdata number :
  unknownSender dbdata number ↔
  checkIfCustomer dbdata number = false ∧ checkIfDriver dbdata number = false.
Proof.
  unfold unknownSender.
  rewrite <- !not_true_iff_false, checkIfCustomer_true, checkIfDriver_true.
  split; intros [Hc Hd]; split.
  - intros (k & v & Hk & Hn). by apply (Hc k v).
  - intros (k & v & Hk & Hn). by apply (Hd k v).
  - intros k v Hk Hn. apply Hc. eauto.
  - intros k v Hk Hn. apply Hd. eauto.
Qed.

Lemma String_eqb_false (a b : string) : a ≠ b → String.eqb a b = false.
Proof. intros H. by apply String.eqb_neq. Qed.


(** A sender found in neither table: nothing is sent, every ride gets a
    log line, and the handler replies. *)
Lemma messageLoop_unknownSender dbdata originator receiver payload ridesOrder :
  unknownSender dbdata originator →
  messageLoop dbdata originator receiver payload ridesOrder
  = ((λ v, LogLine (if String.eqb (Proxy_Number (ThisProxyNumber v)) receiver
                    then noRideLog originator receiver
                    else unknownProxyLog receiver)) <$> ridesOrder)
    ++ [Respond "OK"].
Proof.
  intros [Hc Hd]%checks_unknownSender.
  induction ridesOrder as [|v rest IH]; simpl; [done|].
  rewrite Hc, Hd, IH. by destruct (String.eqb _ receiver).
Qed.

Lemma forwardedTo_logs {A} (f : A → string) (l : list A) :
  forwardedTo (((λ v, LogLine (f v)) <$> l) ++ [Respond "OK"]) = [].
Proof. induction l as [|v rest IH]; simpl; done. Qed.

(** A sender who is a customer reaches the driver of the first ride visited
    on that proxy number, a sender who is only a driver its customer. *)
Lemma messageLoop_first_ride dbdata originator receiver payload skipped v rest :
  (∀ w, w ∈ skipped → Proxy_Number (ThisProxyNumber w) ≠ receiver) →
  Proxy_Number (ThisProxyNumber v) = receiver →
  forwardedTo (messageLoop dbdata originator receiver payload (skipped ++ v :: rest))
  = if checkIfCustomer dbdata originator then [Person_Number (ThisDriver v)]
    else if checkIfDriver dbdata originator then [Person_Number (ThisCustomer v)]
    else forwardedTo (messageLoop dbdata originator receiver payload rest).
Proof.
  intros Hskip Hv. induction skipped as [|w skipped IH]; simpl.
  - rewrite Hv, String.eqb_refl.
    destruct (checkIfCustomer dbdata originator); [done|].
    destruct (checkIfDriver dbdata originator); done.
  - rewrite String_eqb_false by (apply Hskip; left). simpl.
    apply IH. intros u Hu. apply Hskip. by right.
Qed.

(** What does hold of the relay: when the ride of a customer [A] and a
    driver [B] is the first one visited on its proxy number, and [B] is
    not also the number of a customer, messages of [A] go to [B] and
    messages of [B] go to [A]. *)
Lemma message_round_trip_first_ride dbdata skipped v rest payload :
  let A := Person_Number (ThisCustomer v) in
  let B := Person_Number (ThisDriver v) in
  let P := Proxy_Number (ThisProxyNumber v) in
  (∀ w, w ∈ skipped → Proxy_Number (ThisProxyNumber w) ≠ P) →
  checkIfCustomer dbdata A = true →
  checkIfDriver dbdata B = true →
  checkIfCustomer dbdata B = false →
  messageHookHandler dbdata (skipped ++ v :: rest) (mkMessageRequest "POST" A P payload)
  = ((λ _, LogLine (unknownProxyLog P)) <$> skipped) ++ [SendSMS P [B] payload]
  ∧ messageHookHandler dbdata (skipped ++ v :: rest) (mkMessageRequest "POST" B P payload)
  = ((λ _, LogLine (unknownProxyLog P)) <$> skipped) ++ [SendSMS P [A] payload].
Proof.
  intros A B P Hskip HA HB HBc. unfold messageHookHandler. simpl.
  induction skipped as [|w skipped IH]; simpl.
  - fold P. rewrite String.eqb_refl, HA, HBc, HB. done.
  - rewrite String_eqb_false by (apply Hskip; left).
    destruct IH as [IH1 IH2]; [intros u Hu; apply Hskip; by right|].
    by rewrite IH1, IH2.
Qed.

(** C1, as the code has it.  Take a ride of a customer with number [A] and
    a driver with number [B] that is the only ride on its proxy number [P],
    where [A] is in the customers table and [B] is in the drivers table
    and not in the customers table.  Then, whatever the order in which the
    rides are visited, a message of [A] to [P] is sent to [B] and a message
    of [B] to [P] is sent to [A], from [P] and with the same text, after one
    unknown-proxy log line for each ride visited before. *)
Theorem message_round_trip dbdata ridesOrder k v payload :
  let A := Person_Number (ThisCustomer v) in
  let B := Person_Number (ThisDriver v) in
  let P := Proxy_Number (ThisProxyNumber v) in
  range_of (Rides dbdata) ridesOrder →
  Rides dbdata !! k = Some v →
  onlyRideOn dbdata k P →
  checkIfCustomer dbdata A = true →
  checkIfDriver dbdata B = true →
  checkIfCustomer dbdata B = false →
  ∃ skipped : list RideType,
    messageHookHandler dbdata ridesOrder (mkMessageRequest "POST" A P payload)
    = ((λ _, LogLine (unknownProxyLog P)) <$> skipped) ++ [SendSMS P [B] payload]
    ∧ messageHookHandler dbdata ridesOrder (mkMessageRequest "POST" B P payload)
      = ((λ _, LogLine (unknownProxyLog P)) <$> skipped) ++ [SendSMS P [A] payload].
Proof.
  intros A B P Hr Hk Honly HA HB HBc.
  assert (Hv : v ∈ ridesOrder) by (apply (range_of_elem _ _ _ Hr); eauto).
  apply list_elem_of_split_l in Hv as (skipped & rest & -> & Hnotin).
  exists skipped. apply message_round_trip_first_ride; [|done..].
  intros w Hw HP. apply Hnotin.
  assert (w ∈ skipped ++ v :: rest) as [k' Hk']%(range_of_elem _ _ _ Hr)
    by (apply elem_of_app; by left).
  assert (k' = k) as -> by by apply (Honly k' w).
  rewrite Hk in Hk'. by injection Hk' as ->.
Qed.

(** C1 as stated fails in two ways.  When Danny is a customer and also the
    driver of Caitlyn's ride, his message to the proxy number of that ride
    is sent to his own number, because the sender is looked up in the
    customers table first.  And on the history of the rotation scenario,
    where Danny and Eileen share the first proxy number with Caitlyn and
    David, Danny's message is sent to David when the ride of Caitlyn is
    visited first, and Caitlyn's message is sent to Eileen when the ride of
    Danny is visited first. *)
Lemma message_round_trip_fails :
  (Rides (loadDB dannyDrives) = {[1 := rideWithDanny]}
   ∧ range_of (Rides (loadDB dannyDrives)) [rideWithDanny]
   ∧ messageHookHandler (loadDB dannyDrives) [rideWithDanny]
       (mkMessageRequest "POST" danny vmn1 "On my way")
     = [SendSMS vmn1 [danny] "On my way"])
  ∧ (committed rotationTables
     ∧ Rides (loadDB rotationTables) !! 1 = Some ride1
     ∧ Rides (loadDB rotationTables) !! 3 = Some ride3
     ∧ range_of (Rides (loadDB rotationTables)) [ride1; ride2; ride3]
     ∧ range_of (Rides (loadDB rotationTables)) [ride3; ride2; ride1]
     ∧ messageHookHandler (loadDB rotationTables) [ride1; ride2; ride3]
         (mkMessageRequest "POST" danny vmn1 "On my way")
       = [SendSMS vmn1 [david] "On my way"]
     ∧ messageHookHandler (loadDB rotationTables) [ride3; ride2; ride1]
         (mkMessageRequest "POST" caitlyn vmn1 "On my way")
       = [SendSMS vmn1 [eileen] "On my way"]).
Proof.
  split.
  - split; [by vm_compute|]. split; [concrete_range|by vm_compute].
  - split; [apply rotation_committed|].
    split; [by vm_compute|]. split; [by vm_compute|].
    split; [concrete_range|]. split; [concrete_range|].
    split; by vm_compute.
Qed.

(** C2, as the code has it.  When the proxy number is that of some ride
    and the sender is in neither the customers nor the drivers table, no
    message is sent: the trace has the line that no ride was found for this
    sender and proxy number, and ends with the reply. *)
Theorem message_unknown_sender_dropped dbdata ridesOrder k v sender payload :
  let P := Proxy_Number (ThisProxyNumber v) in
  let trace :=
    messageHookHandler dbdata ridesOrder (mkMessageRequest "POST" sender P payload) in
  range_of (Rides dbdata) ridesOrder →
  Rides dbdata !! k = Some v →
  unknownSender dbdata sender →
  forwardedTo trace = []
  ∧ LogLine (noRideLog sender P) ∈ trace
  ∧ last trace = Some (Respond "OK").
Proof.
  intros P trace Hr Hk Hunknown. unfold trace, messageHookHandler. simpl.
  rewrite messageLoop_unknownSender by done.
  split; [apply forwardedTo_logs|]. split; [|apply last_snoc].
  apply elem_of_app. left. apply list_elem_of_fmap. exists v. split.
  - fold P. by rewrite String.eqb_refl.
  - apply (range_of_elem _ _ _ Hr). eauto.
Qed.

(** C2 as stated fails: Danny is a customer, but no party of the only
    ride, which Caitlyn and David have on the first proxy number.  His
    message to that proxy number is sent to David all the same; and a
    message of Eileen, a driver with no ride, is sent to Caitlyn. *)
Lemma message_relay_foreign_sender :
  let dbdata := loadDB oneRide in
  committed oneRide
  ∧ Rides dbdata = {[1 := ride1]}
  ∧ range_of (Rides dbdata) [ride1]
  ∧ danny ≠ Person_Number (ThisCustomer ride1)
  ∧ danny ≠ Person_Number (ThisDriver ride1)
  ∧ messageHookHandler dbdata [ride1] (mkMessageRequest "POST" danny vmn1 "Hello")
    = [SendSMS vmn1 [david] "Hello"]
  ∧ messageHookHandler dbdata [ride1] (mkMessageRequest "POST" eileen vmn1 "Hello")
    = [SendSMS vmn1 [caitlyn] "Hello"].
Proof.
  split.
  { apply (committed_create noRides [] [mkProxy 1 vmn1; mkProxy 2 vmn2] 1 1 (mkProxy 1 vmn1));
      [by apply committed_start|concrete_range|concrete_range|by vm_compute|by vm_compute]. }
  split; [by vm_compute|]. split; [concrete_range|].
  split; [done|]. split; [done|]. split; by vm_compute.
Qed.

(** ** The voice webhook *)

(** As soon as a ride on another proxy number is visited, the handler
    answers with the failure call flow. *)
Lemma voiceLoop_other_proxy dbdata caller proxyNumber forwardToThisNumber ridesOrder :
  (∃ v, v ∈ ridesOrder ∧ Proxy_Number (ThisProxyNumber v) ≠ proxyNumber) →
  ∃ fwd, voiceLoop dbdata caller proxyNumber forwardToThisNumber ridesOrder
         = voiceFailure fwd.
Proof.
  revert forwardToThisNumber.
  induction ridesOrder as [|v rest IH]; intros fwd0 (w & Hw & Hne).
  - by apply elem_of_nil in Hw.
  - simpl. destruct (String.eqb_spec (Proxy_Number (ThisProxyNumber v)) proxyNumber)
      as [Heq|Hneq]; [|by eexists].
    assert (∃ u, u ∈ rest ∧ Proxy_Number (ThisProxyNumber u) ≠ proxyNumber) as Hrest.
    { apply elem_of_cons in Hw as [->|Hw]; [done|eauto]. }
    destruct (checkIfCustomer dbdata caller); [by apply IH|].
    destruct (checkIfDriver dbdata caller); [by apply IH|by eexists].
Qed.


Lemma voiceLoop_failure_nonempty dbdata caller proxyNumber forwardToThisNumber ridesOrder :
  Respond transactionFailXML
    ∈ voiceLoop dbdata caller proxyNumber forwardToThisNumber ridesOrder →
  ridesOrder ≠ [].
Proof.
  intros H ->. simpl in H.
  apply elem_of_cons in H as [H|H]; [done|].
  apply elem_of_cons in H as [H|H]; [|by apply elem_of_nil in H].
  discriminate H.
Qed.

(** C3. In the history of the rotation scenario Danny and Eileen share the
    first proxy number with Caitlyn and David.  Whatever the order in which
    the runtime visits the rides, a call of Danny to that proxy number is
    answered with the failure call flow, because the ride on the second
    proxy number is visited too; and either a message of Danny is sent to
    David or a message of Caitlyn is sent to Eileen, because the first ride
    visited on the proxy number decides. *)
Theorem shared_proxy_not_resolved ridesOrder :
  let dbdata := loadDB rotationTables in
  range_of (Rides dbdata) ridesOrder →
  (∃ fwd, voiceHookHandler dbdata ridesOrder (mkVoiceRequest vmn1 danny)
          = voiceFailure fwd)
  ∧ (forwardedTo (messageHookHandler dbdata ridesOrder
                    (mkMessageRequest "POST" danny vmn1 "On my way")) = [david]
     ∨ forwardedTo (messageHookHandler dbdata ridesOrder
                      (mkMessageRequest "POST" caitlyn vmn1 "On my way")) = [eileen]).
Proof.
  intros dbdata Hr. split.
  - apply voiceLoop_other_proxy. exists ride2. split; [|done].
    apply (range_of_elem _ _ _ Hr). exists 2. by vm_compute.
  - unfold range_of in Hr. symmetry in Hr. apply permutations_Permutation in Hr.
    vm_compute (permutations _) in Hr.
    repeat (apply elem_of_cons in Hr as [->|Hr]);
      [..|by apply elem_of_nil in Hr];
      first [by left; vm_compute | by right; vm_compute].
Qed.



(** C10. With no ride in the snapshot the loop of the voice webhook has
    nothing to visit: the handler logs the transfer and answers with a
    [Transfer] whose destination is the empty string.  The failure call
    flow is written by a loop iteration only: a trace that has it comes
    from a visiting order with at least one ride. *)
Theorem voice_empty_history dbdata ridesOrder r anyOrder :
  Rides dbdata = ∅ →
  range_of (Rides dbdata) ridesOrder →
  ridesOrder = []
  ∧ voiceHookHandler dbdata ridesOrder r
    = [LogLine "Transferring call to  ";
       Respond "<?xml version='1.0' encoding='UTF-8'?><Transfer destination='' make='true' />"]
  ∧ (Respond transactionFailXML ∉ voiceHookHandler dbdata ridesOrder r)
  ∧ (Respond transactionFailXML ∈ voiceHookHandler dbdata anyOrder r → anyOrder ≠ []).
Proof.
  intros Hempty Hr. rewrite Hempty in Hr. apply range_of_empty in Hr as ->.
  split; [done|]. split; [done|]. split.
  - intros H. by apply voiceLoop_failure_nonempty in H.
  - apply voiceLoop_failure_nonempty.
Qed.

(** ** The theorems at the example data *)

Lemma allocate_empty_history_witness :
  ∃ v, allocate (loadDB noRides) [] [mkProxy 1 vmn1; mkProxy 2 vmn2] 2 1 = inl v
       ∧ ∃ k, ProxyNumbers (loadDB noRides) !! k = Some v.
Proof.
  apply allocate_empty_history.
  - reflexivity.
  - apply map_size_non_empty_iff. vm_compute. lia.
  - concrete_range.
Defined.

Lemma exhaustion_case_witness :
  let t := mkTables exampleCustomers exampleDrivers {[1 := vmn1]}
             {[1 := mkRow "Home" "Office" "09:00" 1 2 1]} in
  allocate (loadDB t) (values (Rides (loadDB t))) [mkProxy 1 vmn1] 1 3
  = inr noProxyError
  ∧ allocate (loadDB t) (values (Rides (loadDB t))) [mkProxy 1 vmn1] 5 6
    = inl (mkProxy 1 vmn1).
Proof.
  apply (exhaustion_case exampleCustomers exampleDrivers 1 1 vmn1 "Home" "Office" "09:00").
  - unfold range_of. reflexivity.
  - concrete_range.
Defined.


Lemma committed_noCollision_witness : noCollision (loadDB rotationTables).
Proof. apply committed_noCollision. apply rotation_committed. Defined.

Lemma shared_proxy_not_resolved_witness :
  (∃ fwd, voiceHookHandler (loadDB rotationTables) [ride3; ride1; ride2]
            (mkVoiceRequest vmn1 danny) = voiceFailure fwd)
  ∧ (forwardedTo (messageHookHandler (loadDB rotationTables) [ride3; ride1; ride2]
                    (mkMessageRequest "POST" danny vmn1 "On my way")) = [david]
     ∨ forwardedTo (messageHookHandler (loadDB rotationTables) [ride3; ride1; ride2]
                      (mkMessageRequest "POST" caitlyn vmn1 "On my way")) = [eileen]).
Proof. apply shared_proxy_not_resolved. concrete_range. Defined.


Lemma voice_empty_history_witness :
  voiceHookHandler (loadDB noRides) [] (mkVoiceRequest vmn1 caitlyn)
  = [LogLine "Transferring call to  ";
     Respond "<?xml version='1.0' encoding='UTF-8'?><Transfer destination='' make='true' />"]
  ∧ (Respond transactionFailXML
       ∉ voiceHookHandler (loadDB noRides) [] (mkVoiceRequest vmn1 caitlyn)).
Proof.
  destruct (voice_empty_history (loadDB noRides) [] (mkVoiceRequest vmn1 caitlyn) [ride1])
    as (_ & H1 & H2 & _).
  - reflexivity.
  - concrete_range.
  - split; [exact H1|exact H2].
Defined.

Lemma message_round_trip_witness :
  ∃ skipped : list RideType,
    messageHookHandler (loadDB rotationTables) [ride1; ride2; ride3]
      (mkMessageRequest "POST" caitlyn vmn2 "On my way")
    = ((λ _, LogLine (unknownProxyLog vmn2)) <$> skipped)
      ++ [SendSMS vmn2 [eileen] "On my way"]
    ∧ messageHookHandler (loadDB rotationTables) [ride1; ride2; ride3]
        (mkMessageRequest "POST" eileen vmn2 "On my way")
      = ((λ _, LogLine (unknownProxyLog vmn2)) <$> skipped)
        ++ [SendSMS vmn2 [caitlyn] "On my way"].
Proof.
  apply (message_round_trip (loadDB rotationTables) [ride1; ride2; ride3] 2 ride2).
  - concrete_range.
  - by vm_compute.
  - intros k' v' Hk' HP.
    assert (Hrides : Rides (loadDB rotationTables)
                     = <[3 := ride3]> (<[2 := ride2]> {[1 := ride1]})) by (by vm_compute).
    rewrite Hrides in Hk'.
    apply lookup_insert_Some in Hk' as [[<- <-]|[_ Hk']]; [by vm_compute in HP|].
    apply lookup_insert_Some in Hk' as [[<- <-]|[_ Hk']]; [done|].
    apply lookup_singleton_Some in Hk' as [<- <-]. by vm_compute in HP.
  - by vm_compute.
  - by vm_compute.
  - by vm_compute.
Defined.

Lemma message_unknown_sender_dropped_witness :
  let trace :=
    messageHookHandler (loadDB oneRide) [ride1]
      (mkMessageRequest "POST" "319700098" vmn1 "Hello") in
  forwardedTo trace = []
  ∧ LogLine (noRideLog "319700098" vmn1) ∈ trace
  ∧ last trace = Some (Respond "OK").
Proof.
  apply (message_unknown_sender_dropped (loadDB oneRide) [ride1] 1 ride1 "319700098" "Hello").
  - concrete_range.
  - by vm_compute.
  - apply checks_unknownSender. split; by vm_compute.
Defined.

(** * More of [loadDB], the allocator and the lookups *)

(** ** [loadDB] *)

Lemma loadDB_Customers_lookup t k :
  Customers (loadDB t) !! k = (λ row, mkPerson k row.1 row.2) <$> customers t !! k.
Proof.
  simpl. unfold loadPeople. rewrite map_lookup_imap. by destruct (customers t !! k).
Qed.

Lemma loadDB_Drivers_lookup t k :
  Drivers (loadDB t) !! k = (λ row, mkPerson k row.1 row.2) <$> drivers t !! k.
Proof.
  simpl. unfold loadPeople. rewrite map_lookup_imap. by destruct (drivers t !! k).
Qed.





(** ** The allocator, on any snapshot *)

Lemma inUse_empty dbdata grp : Rides dbdata = ∅ → ¬ inUse dbdata grp.
Proof. intros He (k & v1 & Hk & _). by rewrite He, lookup_empty in Hk. Qed.

Lemma allocate_inl dbdata ridesOrder poolOrder customerID driverID v :
  range_of (Rides dbdata) ridesOrder →
  range_of (ProxyNumbers dbdata) poolOrder →
  allocate dbdata ridesOrder poolOrder customerID driverID = inl v →
  (∃ k, ProxyNumbers dbdata !! k = Some v) ∧ isFree dbdata customerID driverID v.
Proof.
  intros Hro Hpo Halloc. destruct (decide (Rides dbdata = ∅)) as [He|Hne].
  - rewrite allocate_empty in Halloc by done.
    destruct poolOrder as [|w rest]; [done|]. injection Halloc as ->. split.
    + apply (range_of_elem _ _ _ Hpo). left.
    + split; by apply inUse_empty.
  - rewrite allocate_nonempty in Halloc by done.
    apply firstFreeProxy_inl in Halloc as [Hin Hfree]. split.
    + by apply (range_of_elem _ _ _ Hpo).
    + by apply (proxyIsFree_true dbdata ridesOrder).
Qed.

Lemma firstFreeProxy_inr sets customerID driverID poolOrder e v :
  firstFreeProxy sets customerID driverID poolOrder = inr e →
  v ∈ poolOrder → proxyIsFree sets customerID driverID v = false.
Proof.
  induction poolOrder as [|w rest IH]; simpl; intros Hres Hv.
  - by apply elem_of_nil in Hv.
  - destruct (proxyIsFree sets customerID driverID w) eqn:Hw; [done|].
    apply elem_of_cons in Hv as [->|Hv]; [done|by apply IH].
Qed.

Lemma allocate_inr dbdata ridesOrder poolOrder customerID driverID :
  range_of (Rides dbdata) ridesOrder →
  range_of (ProxyNumbers dbdata) poolOrder →
  allocate dbdata ridesOrder poolOrder customerID driverID = inr noProxyError
  ↔ ∀ k v, ProxyNumbers dbdata !! k = Some v → ¬ isFree dbdata customerID driverID v.
Proof.
  intros Hro Hpo. split.
  - intros Halloc k v Hk Hfree.
    assert (Hv : v ∈ poolOrder) by (apply (range_of_elem _ _ _ Hpo); eauto).
    destruct (decide (Rides dbdata = ∅)) as [He|Hne].
    + rewrite allocate_empty in Halloc by done.
      destruct poolOrder; [by apply elem_of_nil in Hv|done].
    + rewrite allocate_nonempty in Halloc by done.
      apply (proxyIsFree_true dbdata ridesOrder) in Hfree; [|done].
      apply (firstFreeProxy_inr _ _ _ _ _ v) in Halloc; [congruence|done].
  - intros Hnone. destruct (decide (Rides dbdata = ∅)) as [He|Hne].
    + rewrite allocate_empty by done. destruct poolOrder as [|w rest]; [done|].
      exfalso. assert (w ∈ w :: rest) as [k Hk]%(range_of_elem _ _ _ Hpo) by left.
      apply (Hnone k w Hk). split; by apply inUse_empty.
    + rewrite allocate_nonempty by done. apply firstFreeProxy_none.
      intros v2 [k Hk]%(range_of_elem _ _ _ Hpo). apply not_true_is_false.
      rewrite (proxyIsFree_true dbdata ridesOrder) by done. by apply (Hnone k).
Qed.

Lemma allocate_total dbdata ridesOrder poolOrder customerID driverID :
  (∃ v, allocate dbdata ridesOrder poolOrder customerID driverID = inl v)
  ∨ allocate dbdata ridesOrder poolOrder customerID driverID = inr noProxyError.
Proof.
  destruct (decide (Rides dbdata = ∅)) as [He|Hne].
  - rewrite allocate_empty by done. destruct poolOrder; [by right|left; eauto].
  - rewrite allocate_nonempty by done. apply firstFreeProxy_total.
Qed.

(** X4. A proxy number the allocator returns is an entry of the pool, and
    no ride of the snapshot carries the group of the requested customer id
    or of the requested driver id with the [ID] of that proxy number. *)
Theorem allocate_sound dbdata ridesOrder poolOrder customerID driverID v :
  range_of (Rides dbdata) ridesOrder →
  range_of (ProxyNumbers dbdata) poolOrder →
  allocate dbdata ridesOrder poolOrder customerID driverID = inl v →
  (∃ k, ProxyNumbers dbdata !! k = Some v)
  ∧ ¬ inUse dbdata [customerID; Proxy_ID v]
  ∧ ¬ inUse dbdata [driverID; Proxy_ID v].
Proof. intros Hro Hpo Halloc. by apply (allocate_inl _ ridesOrder poolOrder). Qed.

(** X5. The allocator returns its error exactly when no entry of the pool
    is free for the request, that is, when every entry has its [ID] in a
    number group of some ride together with the customer id or the driver
    id; in particular with an empty pool.  Otherwise it returns a proxy
    number. *)
Theorem allocate_error_iff dbdata ridesOrder poolOrder customerID driverID :
  range_of (Rides dbdata) ridesOrder →
  range_of (ProxyNumbers dbdata) poolOrder →
  (allocate dbdata ridesOrder poolOrder customerID driverID = inr noProxyError
   ↔ ∀ k v, ProxyNumbers dbdata !! k = Some v → ¬ isFree dbdata customerID driverID v)
  ∧ (ProxyNumbers dbdata = ∅ →
     allocate dbdata ridesOrder poolOrder customerID driverID = inr noProxyError)
  ∧ ((∃ v, allocate dbdata ridesOrder poolOrder customerID driverID = inl v)
     ∨ allocate dbdata ridesOrder poolOrder customerID driverID = inr noProxyError).
Proof.
  intros Hro Hpo. split; [by apply allocate_inr|]. split; [|apply allocate_total].
  intros He. apply allocate_inr; [done..|]. intros k v Hk.
  by rewrite He, lookup_empty in Hk.
Qed.

(** X6. Whether the allocator finds a proxy number does not depend on the
    orders in which the runtime visits the rides and the pool; only which
    of the free proxy numbers it returns does. *)
Theorem allocate_success_order_independent dbdata ro po ro' po' customerID driverID :
  range_of (Rides dbdata) ro → range_of (ProxyNumbers dbdata) po →
  range_of (Rides dbdata) ro' → range_of (ProxyNumbers dbdata) po' →
  (∃ v, allocate dbdata ro po customerID driverID = inl v)
  ↔ (∃ v', allocate dbdata ro' po' customerID driverID = inl v').
Proof.
  intros Hro Hpo Hro' Hpo'.
  assert (Hiff : allocate dbdata ro po customerID driverID = inr noProxyError
                 ↔ allocate dbdata ro' po' customerID driverID = inr noProxyError).
  { rewrite !allocate_inr by done. done. }
  destruct (allocate_total dbdata ro po customerID driverID) as [[v Hv]|He];
    destruct (allocate_total dbdata ro' po' customerID driverID) as [[v' Hv']|He'].
  - split; eauto.
  - apply Hiff in He'. congruence.
  - apply Hiff in He. congruence.
  - rewrite He, He'. split; intros [? ?]; done.
Qed.

(** X7. On a loaded snapshot the ids of customers and drivers are compared
    without regard to the role: the [ID] of the proxy number returned is
    the [number_id] of no ride row whose customer id or driver id equals
    the requested customer id or the requested driver id. *)
Theorem allocate_ids_across_roles t ridesOrder poolOrder customerID driverID v k row :
  range_of (Rides (loadDB t)) ridesOrder →
  allocate (loadDB t) ridesOrder poolOrder customerID driverID = inl v →
  rides t !! k = Some row →
  row_number_id row = Proxy_ID v →
  customerID ≠ row_customer_id row ∧ customerID ≠ row_driver_id row
  ∧ driverID ≠ row_customer_id row ∧ driverID ≠ row_driver_id row.
Proof. apply allocate_isFree. Qed.

(** ** The lookups of the sender *)

(** X8. The loop of [checkIfCustomer] and [checkIfDriver] gives the same
    answer in every order in which the runtime visits the map: it is true
    exactly when some entry has the number. *)
Theorem checkNumber_any_order (people : gmap Z Person) order checkme :
  range_of people order →
  checkNumber order checkme = checkNumber (values people) checkme
  ∧ (checkNumber order checkme = true
     ↔ ∃ k v, people !! k = Some v ∧ Person_Number v = checkme).
Proof.
  intros Hr. split; [by apply checkNumber_Permutation|].
  rewrite checkNumber_true. split.
  - intros (v & [k Hk]%(range_of_elem _ _ _ Hr) & Hn). eauto.
  - intros (k & v & Hk & Hn). exists v. split; [|done].
    apply (range_of_elem _ _ _ Hr). eauto.
Qed.

(** X9. On a loaded snapshot a number is recognised as a customer's exactly
    when a row of the customers table has it, and as a driver's exactly
    when a row of the drivers table has it; the names play no part. *)
Theorem checkIf_loadDB t checkme :
  (checkIfCustomer (loadDB t) checkme = true
   ↔ ∃ id name, customers t !! id = Some (name, checkme))
  ∧ (checkIfDriver (loadDB t) checkme = true
     ↔ ∃ id name, drivers t !! id = Some (name, checkme)).
Proof.
  rewrite checkIfCustomer_true, checkIfDriver_true. split; split.
  - intros (k & v & Hk & Hn). rewrite loadDB_Customers_lookup in Hk.
    destruct (customers t !! k) as [[name number]|] eqn:Hrow; [|done].
    injection Hk as <-. simpl in Hn. subst. eauto.
  - intros (id & name & Hrow). eexists id, _.
    rewrite loadDB_Customers_lookup, Hrow. done.
  - intros (k & v & Hk & Hn). rewrite loadDB_Drivers_lookup in Hk.
    destruct (drivers t !! k) as [[name number]|] eqn:Hrow; [|done].
    injection Hk as <-. simpl in Hn. subst. eauto.
  - intros (id & name & Hrow). eexists id, _.
    rewrite loadDB_Drivers_lookup, Hrow. done.
Qed.

(** * More of the webhooks *)

(** ** The message webhook *)

Lemma messageLoop_shape dbdata originator receiver payload ridesOrder :
  ∃ logs, Forall isLogLine logs
    ∧ ((length logs = length ridesOrder
        ∧ messageLoop dbdata originator receiver payload ridesOrder
          = logs ++ [Respond "OK"])
       ∨ ∃ v, v ∈ ridesOrder
           ∧ Proxy_Number (ThisProxyNumber v) = receiver
           ∧ ((checkIfCustomer dbdata originator = true
               ∧ messageLoop dbdata originator receiver payload ridesOrder
                 = logs ++ [SendSMS receiver [Person_Number (ThisDriver v)] payload])
              ∨ (checkIfCustomer dbdata originator = false
                 ∧ checkIfDriver dbdata originator = true
                 ∧ messageLoop dbdata originator receiver payload ridesOrder
                   = logs ++ [SendSMS receiver [Person_Number (ThisCustomer v)] payload]))).
Proof.
  induction ridesOrder as [|v rest (logs & Hlogs & IH)]; simpl.
  - exists []. split; [constructor|]. by left.
  - assert (Hcons : ∀ line, ∃ logs', Forall isLogLine logs' ∧
      ((length logs' = S (length rest)
        ∧ LogLine line :: messageLoop dbdata originator receiver payload rest
          = logs' ++ [Respond "OK"])
       ∨ ∃ w, w ∈ v :: rest
           ∧ Proxy_Number (ThisProxyNumber w) = receiver
           ∧ ((checkIfCustomer dbdata originator = true
               ∧ LogLine line :: messageLoop dbdata originator receiver payload rest
                 = logs' ++ [SendSMS receiver [Person_Number (ThisDriver w)] payload])
              ∨ (checkIfCustomer dbdata originator = false
                 ∧ checkIfDriver dbdata originator = true
                 ∧ LogLine line :: messageLoop dbdata originator receiver payload rest
                   = logs' ++ [SendSMS receiver [Person_Number (ThisCustomer w)] payload])))).
    { intros line. exists (LogLine line :: logs). split.
      { constructor; [by eexists|done]. }
      destruct IH as [[Hlen ->]|(w & Hw & Hp & [[Hc ->]|(Hc & Hd & ->)])].
      - left. simpl. by rewrite Hlen.
      - right. exists w. split; [by right|]. split; [done|]. by left.
      - right. exists w. split; [by right|]. split; [done|]. by right. }
    destruct (String.eqb_spec (Proxy_Number (ThisProxyNumber v)) receiver) as [Hp|Hp];
      [|apply Hcons].
    destruct (checkIfCustomer dbdata originator) eqn:Hc.
    { exists []. split; [constructor|]. right. exists v.
      split; [left|]. split; [done|]. by left. }
    destruct (checkIfDriver dbdata originator) eqn:Hd; [|apply Hcons].
    exists []. split; [constructor|]. right. exists v.
    split; [left|]. split; [done|]. by right.
Qed.

(** X10. For a request that is not a POST the handler does nothing.  For a
    POST it writes log lines and then either replies OK, having written one
    line for every ride and sent nothing, or sends exactly one message and
    writes no reply: the message goes out from the receiver number with the
    payload unchanged, to the driver of a ride on that proxy number when
    the sender is in the customers table, to the customer of such a ride
    when the sender is only in the drivers table. *)
Theorem message_trace_shape dbdata ridesOrder r :
  let trace := messageHookHandler dbdata ridesOrder r in
  (Method r ≠ "POST" ∧ trace = [])
  ∨ (Method r = "POST" ∧ ∃ logs, Forall isLogLine logs
      ∧ ((length logs = length ridesOrder ∧ trace = logs ++ [Respond "OK"])
         ∨ ∃ v, v ∈ ridesOrder
             ∧ Proxy_Number (ThisProxyNumber v) = receiver r
             ∧ ((checkIfCustomer dbdata (originator r) = true
                 ∧ trace = logs ++ [SendSMS (receiver r)
                                      [Person_Number (ThisDriver v)] (payload r)])
                ∨ (checkIfCustomer dbdata (originator r) = false
                   ∧ checkIfDriver dbdata (originator r) = true
                   ∧ trace = logs ++ [SendSMS (receiver r)
                                        [Person_Number (ThisCustomer v)] (payload r)])))).
Proof.
  intros trace. unfold trace, messageHookHandler.
  destruct (String.eqb_spec (Method r) "POST") as [Hm|Hm]; [right|by left].
  split; [done|]. apply messageLoop_shape.
Qed.

(** X11. The first ride visited on the proxy number decides, whoever its
    parties are: after one unknown-proxy line for every ride visited before
    it, a sender from the customers table reaches its driver and a sender
    who is only in the drivers table reaches its customer. *)
Theorem message_first_ride_decides dbdata skipped v rest r :
  let trace := messageHookHandler dbdata (skipped ++ v :: rest) r in
  let logs := (λ _, LogLine (unknownProxyLog (receiver r))) <$> skipped in
  Method r = "POST" →
  (∀ w, w ∈ skipped → Proxy_Number (ThisProxyNumber w) ≠ receiver r) →
  Proxy_Number (ThisProxyNumber v) = receiver r →
  (checkIfCustomer dbdata (originator r) = true →
   trace = logs ++ [SendSMS (receiver r) [Person_Number (ThisDriver v)] (payload r)])
  ∧ (checkIfCustomer dbdata (originator r) = false →
     checkIfDriver dbdata (originator r) = true →
     trace = logs ++ [SendSMS (receiver r) [Person_Number (ThisCustomer v)] (payload r)]).
Proof.
  intros trace logs Hm Hskip Hv. unfold trace, logs, messageHookHandler.
  rewrite Hm. simpl String.eqb. cbv iota.
  induction skipped as [|w skipped IH]; simpl.
  - rewrite Hv, String.eqb_refl. split.
    + by intros ->.
    + by intros -> ->.
  - rewrite String_eqb_false by (apply Hskip; left).
    destruct IH as [IH1 IH2]; [intros u Hu; apply Hskip; by right|].
    split.
    + intros Hc. by rewrite IH1.
    + intros Hc Hd. by rewrite IH2.
Qed.

(** ** The voice webhook *)

Lemma voiceLoop_shape dbdata caller proxyNumber fwd0 ridesOrder :
  ∃ fwd,
    (fwd = fwd0
     ∨ ∃ v, v ∈ ridesOrder ∧ Proxy_Number (ThisProxyNumber v) = proxyNumber
         ∧ ((checkIfCustomer dbdata caller = true ∧ fwd = Person_Number (ThisDriver v))
            ∨ (checkIfCustomer dbdata caller = false
               ∧ checkIfDriver dbdata caller = true
               ∧ fwd = Person_Number (ThisCustomer v))))
    ∧ (voiceLoop dbdata caller proxyNumber fwd0 ridesOrder = voiceFailure fwd
       ∨ voiceLoop dbdata caller proxyNumber fwd0 ridesOrder = transferTrace fwd).
Proof.
  revert fwd0. induction ridesOrder as [|v rest IH]; intros fwd0; simpl.
  - exists fwd0. split; [by left|by right].
  - destruct (String.eqb_spec (Proxy_Number (ThisProxyNumber v)) proxyNumber) as [Hp|Hp];
      [|exists fwd0; split; [by left|by left]].
    destruct (checkIfCustomer dbdata caller) eqn:Hc.
    { destruct (IH (Person_Number (ThisDriver v))) as (fwd & [->|(w & Hw & Hwp & Hcase)] & Hres).
      - eexists. split; [|exact Hres]. right. exists v.
        split; [left|]. split; [done|]. by left.
      - exists fwd. split; [|exact Hres]. right. exists w. split; [by right|done]. }
    destruct (checkIfDriver dbdata caller) eqn:Hd;
      [|exists fwd0; split; [by left|by left]].
    destruct (IH (Person_Number (ThisCustomer v))) as (fwd & [->|(w & Hw & Hwp & Hcase)] & Hres).
    + eexists. split; [|exact Hres]. right. exists v.
      split; [left|]. split; [done|]. by right.
    + exists fwd. split; [|exact Hres]. right. exists w. split; [by right|done].
Qed.

Lemma voiceLoop_all_match dbdata caller proxyNumber fwd0 ridesOrder :
  (∀ w, w ∈ ridesOrder → Proxy_Number (ThisProxyNumber w) = proxyNumber) →
  (checkIfCustomer dbdata caller = true →
   voiceLoop dbdata caller proxyNumber fwd0 ridesOrder
   = transferTrace (default fwd0 ((Person_Number ∘ ThisDriver) <$> last ridesOrder)))
  ∧ (checkIfCustomer dbdata caller = false → checkIfDriver dbdata caller = true →
     voiceLoop dbdata caller proxyNumber fwd0 ridesOrder
     = transferTrace (default fwd0 ((Person_Number ∘ ThisCustomer) <$> last ridesOrder))).
Proof.
  revert fwd0. induction ridesOrder as [|v rest IH]; intros fwd0 Hall; [done|].
  simpl voiceLoop. rewrite (Hall v) by left. rewrite String.eqb_refl.
  assert (Hrest : ∀ w, w ∈ rest → Proxy_Number (ThisProxyNumber w) = proxyNumber)
    by (intros w Hw; apply Hall; by right).
  split.
  - intros Hc. rewrite Hc.
    destruct (IH (Person_Number (ThisDriver v)) Hrest) as [IH1 _].
    rewrite IH1 by done. destruct rest as [|u rest']; [done|].
    rewrite last_cons_cons. destruct (last (u :: rest')) eqn:E; [done|].
    by apply last_None in E.
  - intros Hc Hd. rewrite Hc, Hd.
    destruct (IH (Person_Number (ThisCustomer v)) Hrest) as [_ IH2].
    rewrite IH2 by done. destruct rest as [|u rest']; [done|].
    rewrite last_cons_cons. destruct (last (u :: rest')) eqn:E; [done|].
    by apply last_None in E.
Qed.

Lemma voiceFailure_not_transfer fwd fwd' : voiceFailure fwd ≠ transferTrace fwd'.
Proof. discriminate. Qed.

(** X12. The voice webhook always writes exactly one response and one log
    line and sends no message: either the failure call flow or a transfer.
    The number in the transfer and in the log line is the empty string or
    the number of a party of a ride visited on the called proxy number: of
    its driver when the caller is in the customers table, of its customer
    when the caller is only in the drivers table. *)
Theorem voice_trace_shape dbdata ridesOrder r :
  ∃ fwd,
    (fwd = ""
     ∨ ∃ v, v ∈ ridesOrder ∧ Proxy_Number (ThisProxyNumber v) = destination r
         ∧ ((checkIfCustomer dbdata (source r) = true
             ∧ fwd = Person_Number (ThisDriver v))
            ∨ (checkIfCustomer dbdata (source r) = false
               ∧ checkIfDriver dbdata (source r) = true
               ∧ fwd = Person_Number (ThisCustomer v))))
    ∧ (voiceHookHandler dbdata ridesOrder r
       = [Respond transactionFailXML; LogLine (transferFailedLog fwd)]
       ∨ voiceHookHandler dbdata ridesOrder r
         = [LogLine (transferringLog fwd); Respond (transferXML fwd)])
    ∧ forwardedTo (voiceHookHandler dbdata ridesOrder r) = [].
Proof.
  destruct (voiceLoop_shape dbdata (source r) (destination r) "" ridesOrder)
    as (fwd & Hfwd & Hres).
  exists fwd. split; [done|]. split; [done|].
  unfold voiceHookHandler. by destruct Hres as [-> | ->].
Qed.

(** X13. The call is transferred exactly when every ride of the snapshot
    is on the called proxy number and, unless there is no ride at all, the
    caller is in the customers or in the drivers table.  So whether a call
    is transferred does not depend on the order in which the rides are
    visited, and one ride on another proxy number makes every call fail. *)
Theorem voice_transfer_iff dbdata ridesOrder r :
  range_of (Rides dbdata) ridesOrder →
  (∃ fwd, voiceHookHandler dbdata ridesOrder r = transferTrace fwd)
  ↔ (∀ k v, Rides dbdata !! k = Some v → Proxy_Number (ThisProxyNumber v) = destination r)
    ∧ (Rides dbdata = ∅
       ∨ checkIfCustomer dbdata (source r) = true
       ∨ checkIfDriver dbdata (source r) = true).
Proof.
  intros Hr. unfold voiceHookHandler. split.
  - intros [fwd Hres]. split.
    + intros k v Hk.
      destruct (String.eqb_spec (Proxy_Number (ThisProxyNumber v)) (destination r))
        as [Hp|Hp]; [done|].
      destruct (voiceLoop_other_proxy dbdata (source r) (destination r) "" ridesOrder)
        as [fwd' Hfail].
      { exists v. split; [|done]. apply (range_of_elem _ _ _ Hr). eauto. }
      rewrite Hfail in Hres. by apply voiceFailure_not_transfer in Hres.
    + destruct ridesOrder as [|v rest].
      { left. apply range_of_length in Hr. simpl in Hr. symmetry in Hr.
        by apply map_size_empty_iff. }
      right. simpl in Hres.
      destruct (String.eqb _ (destination r));
        [|by apply voiceFailure_not_transfer in Hres].
      destruct (checkIfCustomer dbdata (source r)); [by left|].
      destruct (checkIfDriver dbdata (source r)); [by right|].
      by apply voiceFailure_not_transfer in Hres.
  - intros [Hall Hknown].
    assert (Hall' : ∀ w, w ∈ ridesOrder →
                         Proxy_Number (ThisProxyNumber w) = destination r).
    { intros w [k Hk]%(range_of_elem _ _ _ Hr). by apply (Hall k). }
    destruct (voiceLoop_all_match dbdata (source r) (destination r) "" ridesOrder Hall')
      as [Hcust Hdrv].
    destruct Hknown as [He|Hknown].
    { rewrite He in Hr. apply range_of_empty in Hr as ->. by eexists. }
    destruct (checkIfCustomer dbdata (source r)) eqn:Hc.
    { eexists. by apply Hcust. }
    destruct Hknown as [?|Hd]; [done|]. eexists. by apply Hdrv.
Qed.

(** X14. When every ride visited is on the called proxy number, the last
    ride visited decides where the call goes: to its driver for a caller
    from the customers table, to its customer for a caller who is only in
    the drivers table. *)
Theorem voice_last_ride_decides dbdata front v r :
  (∀ w, w ∈ front ++ [v] → Proxy_Number (ThisProxyNumber w) = destination r) →
  (checkIfCustomer dbdata (source r) = true →
   voiceHookHandler dbdata (front ++ [v]) r
   = transferTrace (Person_Number (ThisDriver v)))
  ∧ (checkIfCustomer dbdata (source r) = false →
     checkIfDriver dbdata (source r) = true →
     voiceHookHandler dbdata (front ++ [v]) r
     = transferTrace (Person_Number (ThisCustomer v))).
Proof.
  intros Hall. unfold voiceHookHandler.
  destruct (voiceLoop_all_match dbdata (source r) (destination r) "" (front ++ [v]) Hall)
    as [Hcust Hdrv].
  rewrite last_snoc in Hcust, Hdrv. done.
Qed.

(** X15. With exactly one ride in the snapshot, of a customer with number
    [A] and a driver with number [B] on proxy number [P], where [A] is in
    the customers table and [B] is in the drivers table and not in the
    customers table, a call of [A] to [P] is transferred to [B] and a call
    of [B] to [P] is transferred to [A]. *)
Theorem voice_round_trip_single_ride dbdata ridesOrder k v :
  let A := Person_Number (ThisCustomer v) in
  let B := Person_Number (ThisDriver v) in
  let P := Proxy_Number (ThisProxyNumber v) in
  range_of (Rides dbdata) ridesOrder →
  Rides dbdata = {[k := v]} →
  checkIfCustomer dbdata A = true →
  checkIfDriver dbdata B = true →
  checkIfCustomer dbdata B = false →
  voiceHookHandler dbdata ridesOrder (mkVoiceRequest P A) = transferTrace B
  ∧ voiceHookHandler dbdata ridesOrder (mkVoiceRequest P B) = transferTrace A.
Proof.
  intros A B P Hr Hrides HA HB HBc.
  assert (ridesOrder = [v]) as ->.
  { unfold range_of, values in Hr. rewrite Hrides, map_to_list_singleton in Hr.
    simpl in Hr. by apply Permutation_singleton_r in Hr. }
  unfold voiceHookHandler. simpl. fold P. rewrite String.eqb_refl.
  fold A B. by rewrite HA, HBc, HB.
Qed.

(** * [createRideHandler] *)

Lemma getAvailableProxyNumber_run ridesOrder poolOrder customerID driverID dbdata :
  getAvailableProxyNumber ridesOrder poolOrder customerID driverID dbdata
  = (allocate dbdata ridesOrder poolOrder customerID driverID, dbdata).
Proof.
  unfold allocate, getAvailableProxyNumber, gets, mbind, State_bind. simpl.
  case_bool_decide; [by destruct poolOrder|done].
Qed.

Lemma reloadAndRender_run reload events dbdata :
  reloadAndRender reload events dbdata
  = ((events ++ reloadTail reload dbdata)%list,
     match reload with inl t' => loadDB t' | inr e => withMessage dbdata e end).
Proof.
  unfold reloadAndRender, reloadTail, withMessage, loadDBM, renderLanding, setMessage,
    gets, mbind, mret, State_bind, State_ret.
  destruct reload as [t'|e]; simpl; [done|]. by rewrite <- app_assoc.
Qed.

(** The handler, step by step, once the first load went through. *)
Lemma createRideHandler_loaded Atoi t ridesOrder poolOrder inserted reload r dbdata :
  createRideHandler Atoi (inl t) ridesOrder poolOrder inserted reload r dbdata
  = if String.eqb (form_Method r) "POST" then
      match (Atoi (form_driver r)).2 with
      | Some e =>
          ([Render landingView (withMessage (loadDB t) ("Something went wrong: " ++ e))],
           withMessage (loadDB t) ("Something went wrong: " ++ e))
      | None =>
          match allocate (loadDB t) ridesOrder poolOrder
                  (Atoi (form_customer r)).1 (Atoi (form_driver r)).1 with
          | inr e =>
              ([Effect (LogLine e);
                Render landingView
                  (withMessage (loadDB t) ("We encountered an error: " ++ e))],
               withMessage (loadDB t) ("We encountered an error: " ++ e))
          | inl v =>
              let q := insertQuery (form_start r) (form_destination r) (form_datetime r)
                         (form_customer r) (form_driver r) (Proxy_ID v) in
              if inserted then
                reloadAndRender reload
                  [DbInsert [q];
                   Effect (SendSMS (Proxy_Number v)
                     [Person_Number (personAt (Customers (loadDB t))
                                       (Atoi (form_customer r)).1)]
                     (pickupNotice
                        (Person_Name (personAt (Drivers (loadDB t))
                                        (Atoi (form_driver r)).1))
                        (form_datetime r)));
                   Effect (SendSMS (Proxy_Number v)
                     [Person_Number (personAt (Drivers (loadDB t))
                                       (Atoi (form_driver r)).1)]
                     (pickupNotice
                        (Person_Name (personAt (Customers (loadDB t))
                                        (Atoi (form_customer r)).1))
                        (form_datetime r)))]
                  (loadDB t)
              else ([DbInsert [q]; Fatal], loadDB t)
          end
      end
    else reloadAndRender reload [] (loadDB t).
Proof.
  unfold createRideHandler, mbind, mret, State_bind, State_ret, loadDBM, setMessage,
    renderLanding, gets, withMessage.
  destruct (String.eqb (form_Method r) "POST"); [|done].
  destruct (Atoi (form_customer r)) as [customerIDint e1].
  destruct (Atoi (form_driver r)) as [driverIDint [e2|]]; [done|].
  cbn [fst snd].
  rewrite getAvailableProxyNumber_run.
  destruct (allocate (loadDB t) ridesOrder poolOrder customerIDint driverIDint) as [v|e].
  - by destruct inserted.
  - reflexivity.
Qed.



(** Refutes that an event of one kind is in a trace made of other kinds. *)
Ltac not_in_trace H :=
  repeat first
    [ apply elem_of_app in H as [H|H]
    | apply elem_of_cons in H as [H|H]; [discriminate H|]
    | by apply elem_of_nil in H ].

Lemma reloadTail_quiet reload dbdata e :
  e ∈ reloadTail reload dbdata →
  (∀ q, e ≠ DbInsert q) ∧ (∀ o rs b, e ≠ Effect (SendSMS o rs b)) ∧ e ≠ Fatal.
Proof.
  intros H. repeat split; intros; intros ->;
    destruct reload; simpl in H; not_in_trace H.
Qed.

(** X16. The handler hands a statement to [dbInsert] exactly when the
    first load went through, the request is a POST, the driver field is a
    number and the allocator returned a proxy number; the customer field is
    used with whatever value [Atoi] gives for it, its error is not looked
    at.  Messages are sent exactly when, in addition, the statement went
    through. *)
Theorem createRide_insert_iff Atoi load ridesOrder poolOrder inserted reload r dbdata :
  let trace := createRideTrace Atoi load ridesOrder poolOrder inserted reload r dbdata in
  ((∃ q, DbInsert q ∈ trace)
   ↔ ∃ t v, load = inl t ∧ form_Method r = "POST"
       ∧ (Atoi (form_driver r)).2 = None
       ∧ allocate (loadDB t) ridesOrder poolOrder
           (Atoi (form_customer r)).1 (Atoi (form_driver r)).1 = inl v)
  ∧ ((∃ o rs b, Effect (SendSMS o rs b) ∈ trace)
     ↔ inserted = true ∧ ∃ q, DbInsert q ∈ trace).
Proof.
  intros trace. unfold trace, createRideTrace. destruct load as [t|e]; cycle 1.
  { split; split.
    - intros [q H]. simpl in H. not_in_trace H.
    - by intros (t & v & [=] & _).
    - intros (o & rs & b & H). simpl in H. not_in_trace H.
    - intros [_ [q H]]. simpl in H. not_in_trace H. }
  rewrite createRideHandler_loaded.
  destruct (String.eqb_spec (form_Method r) "POST") as [Hm|Hm]; cycle 1.
  { rewrite reloadAndRender_run. simpl. split; split.
    - intros [q H]. apply reloadTail_quiet in H as [H _]. by destruct (H q).
    - by intros (t' & v & _ & ? & _).
    - intros (o & rs & b & H). apply reloadTail_quiet in H as (_ & H & _).
      by destruct (H o rs b).
    - intros [_ [q H]]. apply reloadTail_quiet in H as [H _]. by destruct (H q). }
  destruct (Atoi (form_driver r)).2 as [e|] eqn:Hd.
  { split; split.
    - intros [q H]. simpl in H. not_in_trace H.
    - by intros (t' & v & _ & _ & ? & _).
    - intros (o & rs & b & H). simpl in H. not_in_trace H.
    - intros [_ [q H]]. simpl in H. not_in_trace H. }
  destruct (allocate (loadDB t) ridesOrder poolOrder _ _) as [v|e] eqn:Halloc.
  - assert (Hins : ∃ q, DbInsert q ∈
      (if inserted then reloadAndRender reload
         [DbInsert [insertQuery (form_start r) (form_destination r) (form_datetime r)
                      (form_customer r) (form_driver r) (Proxy_ID v)];
          Effect (SendSMS (Proxy_Number v)
            [Person_Number (personAt (Customers (loadDB t)) (Atoi (form_customer r)).1)]
            (pickupNotice (Person_Name (personAt (Drivers (loadDB t))
                                          (Atoi (form_driver r)).1))
               (form_datetime r)));
          Effect (SendSMS (Proxy_Number v)
            [Person_Number (personAt (Drivers (loadDB t)) (Atoi (form_driver r)).1)]
            (pickupNotice (Person_Name (personAt (Customers (loadDB t))
                                          (Atoi (form_customer r)).1))
               (form_datetime r)))] (loadDB t)
       else ([DbInsert [insertQuery (form_start r) (form_destination r)
                          (form_datetime r) (form_customer r) (form_driver r)
                          (Proxy_ID v)]; Fatal], loadDB t)).1).
    { eexists. destruct inserted; [rewrite reloadAndRender_run|]; simpl; left. }
    simpl. split; split.
    + intros _. by exists t, v.
    + intros _. exact Hins.
    + intros (o & rs & b & H). split; [|exact Hins].
      destruct inserted; [done|]. simpl in H. not_in_trace H.
    + intros [-> _]. rewrite reloadAndRender_run. simpl.
      do 3 eexists. right. left.
  - split; split.
    + intros [q H]. simpl in H. not_in_trace H.
    + intros (t' & v & [= <-] & _ & _ & Hv). congruence.
    + intros (o & rs & b & H). simpl in H. not_in_trace H.
    + intros [_ [q H]]. simpl in H. not_in_trace H.
Qed.


(** X18. When no entry of the pool is free for the request, nothing is
    handed to [dbInsert] and no message is sent: the handler logs the error
    and renders the page from the snapshot it loaded, with the message
    that no proxy number is available. *)
Theorem createRide_pool_exhausted Atoi t ridesOrder poolOrder inserted reload r dbdata :
  let c := (Atoi (form_customer r)).1 in
  let d := (Atoi (form_driver r)).1 in
  let page :=
    withMessage (loadDB t) "We encountered an error: no available proxy numbers" in
  range_of (Rides (loadDB t)) ridesOrder →
  range_of (ProxyNumbers (loadDB t)) poolOrder →
  form_Method r = "POST" →
  (Atoi (form_driver r)).2 = None →
  (∀ k v, ProxyNumbers (loadDB t) !! k = Some v → ¬ isFree (loadDB t) c d v) →
  createRideTrace Atoi (inl t) ridesOrder poolOrder inserted reload r dbdata
  = [Effect (LogLine "no available proxy numbers"); Render landingView page]
  ∧ createRideFinal Atoi (inl t) ridesOrder poolOrder inserted reload r dbdata = page
  ∧ Rides page = Rides (loadDB t).
Proof.
  intros c d page Hro Hpo Hm Hd Hnone.
  apply (allocate_inr _ _ _ _ _ Hro Hpo) in Hnone.
  unfold createRideTrace, createRideFinal. rewrite createRideHandler_loaded.
  rewrite Hm, Hd. fold c d. rewrite Hnone. done.
Qed.

(** X19. Unless [dbInsert] ends the process, every run of the handler
    renders the landing page exactly once, as its last event, and what it
    renders is the snapshot it leaves behind [dbdata]. *)
Theorem createRide_renders_last Atoi load ridesOrder poolOrder inserted reload r dbdata :
  let trace := createRideTrace Atoi load ridesOrder poolOrder inserted reload r dbdata in
  let final := createRideFinal Atoi load ridesOrder poolOrder inserted reload r dbdata in
  (inserted = false ∧ last trace = Some Fatal)
  ∨ ∃ front, trace = front ++ [Render landingView final]
      ∧ ∀ view data, Render view data ∉ front.
Proof.
  intros trace final. unfold trace, final, createRideTrace, createRideFinal.
  assert (Hreload : ∀ events dbdata',
    (∀ view data, Render view data ∉ events) →
    ∃ front, (reloadAndRender reload events dbdata').1
             = front ++ [Render landingView (reloadAndRender reload events dbdata').2]
      ∧ ∀ view data, Render view data ∉ front).
  { intros events dbdata' Hev. rewrite reloadAndRender_run.
    destruct reload as [t'|e]; simpl.
    - exists events. by split.
    - exists (events ++ [Effect (LogLine e)]). split; [by rewrite <- app_assoc|].
      intros view data H. apply elem_of_app in H as [H|H]; [by apply Hev in H|].
      not_in_trace H. }
  destruct load as [t|e]; cycle 1.
  { right. exists [Effect (LogLine e)]. split; [done|].
    intros view data H. not_in_trace H. }
  rewrite createRideHandler_loaded.
  destruct (String.eqb (form_Method r) "POST"); cycle 1.
  { right. apply Hreload. intros view data H. by apply elem_of_nil in H. }
  destruct (Atoi (form_driver r)).2 as [e|].
  { right. exists []. split; [done|]. intros view data H. by apply elem_of_nil in H. }
  destruct (allocate (loadDB t) ridesOrder poolOrder _ _) as [v|e].
  - destruct inserted; [right|by left].
    apply Hreload. intros view data H. not_in_trace H.
  - right. exists [Effect (LogLine e)]. split; [done|].
    intros view data H. not_in_trace H.
Qed.

(** * The further properties at the example data *)



Lemma allocate_sound_witness :
  (∃ k, ProxyNumbers (loadDB twoRides) !! k = Some (mkProxy 1 vmn1))
  ∧ ¬ inUse (loadDB twoRides) [2; 1]
  ∧ ¬ inUse (loadDB twoRides) [2; 1].
Proof.
  apply (allocate_sound (loadDB twoRides) [ride1; ride2] [mkProxy 2 vmn2; mkProxy 1 vmn1]
           2 2 (mkProxy 1 vmn1)).
  - concrete_range.
  - concrete_range.
  - by vm_compute.
Defined.

Lemma allocate_error_iff_witness :
  allocate (loadDB twoRides) [ride1; ride2] [mkProxy 2 vmn2; mkProxy 1 vmn1] 1 2
  = inr noProxyError
  ↔ ∀ k v, ProxyNumbers (loadDB twoRides) !! k = Some v → ¬ isFree (loadDB twoRides) 1 2 v.
Proof.
  apply (allocate_error_iff (loadDB twoRides) [ride1; ride2]
           [mkProxy 2 vmn2; mkProxy 1 vmn1] 1 2).
  - concrete_range.
  - concrete_range.
Defined.

Lemma allocate_success_order_independent_witness :
  (∃ v, allocate (loadDB oneRide) [ride1] [mkProxy 1 vmn1; mkProxy 2 vmn2] 2 2 = inl v)
  ↔ (∃ v', allocate (loadDB oneRide) [ride1] [mkProxy 2 vmn2; mkProxy 1 vmn1] 2 2 = inl v').
Proof.
  apply allocate_success_order_independent; concrete_range.
Defined.

Lemma allocate_ids_across_roles_witness :
  2 ≠ 1 ∧ 2 ≠ 1 ∧ 2 ≠ 1 ∧ 2 ≠ 1.
Proof.
  apply (allocate_ids_across_roles twoRides [ride1; ride2]
           [mkProxy 2 vmn2; mkProxy 1 vmn1] 2 2 (mkProxy 1 vmn1) 1
           (mkRow "Home" "Office" "09:00" 1 1 1)).
  - concrete_range.
  - by vm_compute.
  - by vm_compute.
  - reflexivity.
Defined.

Lemma checkNumber_any_order_witness :
  let people := Customers (loadDB noRides) in
  let order := [mkPerson 1 "Caitlyn Carless" caitlyn; mkPerson 2 "Danny Bikes" danny] in
  checkNumber order danny = checkNumber (values people) danny
  ∧ (checkNumber order danny = true
     ↔ ∃ k v, people !! k = Some v ∧ Person_Number v = danny).
Proof.
  apply checkNumber_any_order. concrete_range.
Defined.

Lemma message_first_ride_decides_witness :
  messageHookHandler (loadDB rotationTables) ([ride2] ++ ride3 :: [ride1])
    (mkMessageRequest "POST" caitlyn vmn1 "Hello")
  = [LogLine (unknownProxyLog vmn1); SendSMS vmn1 [eileen] "Hello"].
Proof.
  destruct (message_first_ride_decides (loadDB rotationTables) [ride2] ride3 [ride1]
              (mkMessageRequest "POST" caitlyn vmn1 "Hello")) as [H _].
  - reflexivity.
  - intros w Hw. apply elem_of_cons in Hw as [->|Hw]; [done|by apply elem_of_nil in Hw].
  - reflexivity.
  - apply H. by vm_compute.
Defined.

Lemma voice_transfer_iff_witness :
  (∃ fwd, voiceHookHandler (loadDB oneRide) [ride1] (mkVoiceRequest vmn1 caitlyn)
          = transferTrace fwd)
  ↔ (∀ k v, Rides (loadDB oneRide) !! k = Some v
            → Proxy_Number (ThisProxyNumber v) = vmn1)
    ∧ (Rides (loadDB oneRide) = ∅
       ∨ checkIfCustomer (loadDB oneRide) caitlyn = true
       ∨ checkIfDriver (loadDB oneRide) caitlyn = true).
Proof.
  apply (voice_transfer_iff (loadDB oneRide) [ride1] (mkVoiceRequest vmn1 caitlyn)).
  concrete_range.
Defined.

Lemma voice_last_ride_decides_witness :
  voiceHookHandler (loadDB rotationTables) ([ride3] ++ [ride1])
    (mkVoiceRequest vmn1 danny)
  = transferTrace david.
Proof.
  destruct (voice_last_ride_decides (loadDB rotationTables) [ride3] ride1
              (mkVoiceRequest vmn1 danny)) as [H _].
  - intros w Hw. apply elem_of_cons in Hw as [->|Hw]; [done|].
    apply elem_of_cons in Hw as [->|Hw]; [done|by apply elem_of_nil in Hw].
  - apply H. by vm_compute.
Defined.

Lemma voice_round_trip_single_ride_witness :
  voiceHookHandler (loadDB oneRide) [ride1] (mkVoiceRequest vmn1 caitlyn)
  = transferTrace david
  ∧ voiceHookHandler (loadDB oneRide) [ride1] (mkVoiceRequest vmn1 david)
    = transferTrace caitlyn.
Proof.
  apply (voice_round_trip_single_ride (loadDB oneRide) [ride1] 1 ride1).
  - concrete_range.
  - by vm_compute.
  - by vm_compute.
  - by vm_compute.
  - by vm_compute.
Defined.


Lemma createRide_pool_exhausted_witness :
  let r := mkCreateRideRequest "POST" "1" "2" "Office" "Airport" "12:00" in
  let page :=
    withMessage (loadDB twoRides) "We encountered an error: no available proxy numbers" in
  createRideTrace exampleAtoi (inl twoRides) [ride1; ride2]
    [mkProxy 1 vmn1; mkProxy 2 vmn2] true (inl twoRides) r (loadDB noRides)
  = [Effect (LogLine "no available proxy numbers"); Render landingView page]
  ∧ createRideFinal exampleAtoi (inl twoRides) [ride1; ride2]
      [mkProxy 1 vmn1; mkProxy 2 vmn2] true (inl twoRides) r (loadDB noRides) = page
  ∧ Rides page = Rides (loadDB twoRides).
Proof.
  intros r page.
  apply (createRide_pool_exhausted exampleAtoi twoRides [ride1; ride2]
           [mkProxy 1 vmn1; mkProxy 2 vmn2] true (inl twoRides) r (loadDB noRides)).
  - concrete_range.
  - concrete_range.
  - reflexivity.
  - reflexivity.
  - intros k v Hk [Hc _]. apply Hc. clear Hc.
    assert (Hpool : ProxyNumbers (loadDB twoRides)
                    = <[1 := mkProxy 1 vmn1]> {[2 := mkProxy 2 vmn2]}) by (by vm_compute).
    rewrite Hpool in Hk.
    apply lookup_insert_Some in Hk as [[<- <-]|[_ Hk]].
    + exists 1, ride1. split; [by vm_compute|]. simpl. left.
    + apply lookup_singleton_Some in Hk as [<- <-].
      exists 2, ride2. split; [by vm_compute|]. simpl. left.
Defined.

(** * One more ride on any history that has no collision *)

(** X20. The invariant is kept from any tables that satisfy it, not only
    from the histories that start empty: when no two rides on the same
    proxy number share a customer or driver id, and a ride is stored under
    an unused id with the proxy number the allocator returned for its
    customer and driver on the snapshot of those tables, the new tables
    satisfy the invariant too. *)
Theorem insertRide_keeps_noCollision t ridesOrder poolOrder customerID driverID v id
    start dest datetime :
  noCollision (loadDB t) →
  range_of (Rides (loadDB t)) ridesOrder →
  allocate (loadDB t) ridesOrder poolOrder customerID driverID = inl v →
  rides t !! id = None →
  noCollision
    (loadDB (insertRide t id (mkRow start dest datetime customerID driverID (Proxy_ID v)))).
Proof.
  intros Hinv Hro Halloc Hfresh. apply noCollision_rows. apply noCollision_rows in Hinv.
  intros k1 k2 x1 x2 Hne H1 H2 Hn. simpl in H1, H2.
  apply lookup_insert_Some in H1 as [[<- <-]|[Hk1 H1]];
    apply lookup_insert_Some in H2 as [[<- <-]|[Hk2 H2]]; simpl in *.
  - done.
  - by apply (allocate_isFree t ridesOrder poolOrder customerID driverID v k2 x2).
  - destruct (allocate_isFree t ridesOrder poolOrder customerID driverID v k1 x1)
      as (?&?&?&?); [done..|].
    repeat split; congruence.
  - by apply (Hinv k1 k2).
Qed.

Lemma insertRide_keeps_noCollision_witness : noCollision (loadDB rotationTables).
Proof.
  apply (insertRide_keeps_noCollision twoRides [ride1; ride2]
           [mkProxy 2 vmn2; mkProxy 1 vmn1] 2 2 (mkProxy 1 vmn1) 3
           "Station" "Home" "18:00").
  - apply noCollision_rows. intros k1 k2 x1 x2 Hne H1 H2 Hn. simpl in H1, H2.
    apply lookup_insert_Some in H1 as [[<- <-]|[_ H1]];
      apply lookup_insert_Some in H2 as [[<- <-]|[_ H2]];
      try (apply lookup_insert_Some in H1 as [[<- <-]|[_ H1]]);
      try (apply lookup_insert_Some in H2 as [[<- <-]|[_ H2]]);
      try (by rewrite lookup_empty in H1); try (by rewrite lookup_empty in H2);
      done.
  - concrete_range.
  - by vm_compute.
  - by vm_compute.
Defined.
